(** * Alias game server: team roster, turn rotation and bootstrap

    A shallow embedding of [TeamsService] (teams.service.ts) and of the
    bootstrap service [InitializationService], over a store made of the two
    document collections the services talk to. *)

From stdpp Require Import gmap strings list fin_maps.
From Stdlib Require Import ZArith.

(** ** Documents *)

(** A [Types.ObjectId].  The ODM compares identifiers by value. *)
Abbreviation ObjectId := nat (only parsing).

(** A document of the [Team] collection. *)
Record Team := mkTeam {
  team_id : ObjectId;                 (* _id *)
  roomId : ObjectId;
  team_name : string;                 (* name *)
  players : list ObjectId;
  describer : option ObjectId;
  teamLeader : option ObjectId
}.

(** A document of the [Room] collection. *)
Record Room := mkRoom {
  room_id : ObjectId;                 (* _id *)
  room_name : string;                 (* name *)
  teams : list ObjectId;
  turnTime : Z
}.

Record CreateTeamDto := mkCreateTeamDto {
  ct_name : string;
  ct_players : list ObjectId
}.

Record CreateRoomDto := mkCreateRoomDto {
  cr_name : string;
  cr_teams : list ObjectId;
  cr_turnTime : Z
}.

(** The only field [TeamsService] ever passes in an [UpdateTeamDto]. *)
Record UpdateTeamDto := mkUpdateTeamDto {
  ut_players : option (list ObjectId)
}.

#[global] Instance Team_eq_dec : EqDecision Team.
Proof. solve_decision. Defined.

#[global] Instance Room_eq_dec : EqDecision Room.
Proof. solve_decision. Defined.

(** ** The store and the monad of service calls *)

Record Db := mkDb {
  roomModel : gmap nat Room;
  teamModel : gmap nat Team
}.

Definition emptyDb : Db := mkDb ∅ ∅.

Inductive Message :=
| Team_not_found                                  (* 'Team not found.' *)
| Team_is_already_full                            (* 'Team is already full.' *)
| User_is_already_in_the_team                     (* 'User is already in the team.' *)
| Team_in_room_not_found (teamId roomId : ObjectId).
                                  (* `Team ${teamId} in room ${roomId} not found` *)

Inductive HttpException :=
| NotFoundException (m : Message)
| BadRequestException (m : Message).

(** An awaited call either throws or returns; what it wrote to the store
    before throwing stays written. *)
Definition M (A : Type) : Type := Db → (HttpException + A) * Db.

#[global] Instance M_ret : MRet M := λ A a s, (inr a, s).
#[global] Instance M_bind : MBind M := λ A B k m s,
  match m s with
  | (inr a, s') => k a s'
  | (inl e, s') => (inl e, s')
  end.

Definition throw {A} (e : HttpException) : M A := λ s, (inl e, s).

(** The store after a call, whatever its outcome. *)
Definition exec {A} (m : M A) (s : Db) : Db := (m s).2.

(** [for (const x of l) body], threading the locals the body updates. *)
Fixpoint forOf {A L} (l : list A) (body : L → A → M L) (locals : L) : M L :=
  match l with
  | [] => mret locals
  | x :: l' => locals' ← body locals x; forOf l' body locals'
  end.

(** A new [ObjectId]: one that no document of the store carries.  (An
    identifier freed by a deletion can come back; the statements below speak
    of the store a call finds.) *)
Definition newObjectId : M ObjectId :=
  λ s, (inr (fresh (dom (roomModel s) ∪ dom (teamModel s))), s).

(** ** JavaScript numbers and arrays, as far as the services use them *)

(** An integer-valued number; [None] is NaN. *)
Definition number := option Z.

(** [a % b]: the remainder has the sign of [a]; [a % 0] is NaN. *)
Definition js_rem (a b : number) : number :=
  a ← a; b ← b; if decide (b = 0%Z) then None else Some (Z.rem a b).

Definition js_add (a b : number) : number :=
  a ← a; b ← b; Some (a + b)%Z.

(** [arr[i]]: [undefined] outside the array and at NaN. *)
Definition js_get {A} (arr : list A) (i : number) : option A :=
  i ← i; if decide (0 ≤ i)%Z then arr !! Z.to_nat i else None.

Definition js_length {A} (arr : list A) : number := Some (Z.of_nat (length arr)).

(** [arr.indexOf(x)] on an array of identifiers: the first position holding
    [x], or -1. *)
Fixpoint indexOf_from (arr : list ObjectId) (x : ObjectId) (i : Z) : Z :=
  match arr with
  | [] => -1
  | y :: arr' => if decide (x = y) then i else indexOf_from arr' x (i + 1)
  end.

Definition indexOf (arr : list ObjectId) (x : ObjectId) : Z := indexOf_from arr x 0.

(** [arr.includes(x)] is [arr.indexOf(x) !== -1]. *)
Definition includes (arr : list ObjectId) (x : ObjectId) : bool :=
  negb (indexOf arr x =? -1)%Z.

(** ** The [Team] collection *)

(** The document matching [{ _id: teamId, roomId }]. *)
Definition team_matching (teamId roomId_ : ObjectId) (s : Db) : option Team :=
  t ← teamModel s !! teamId;
  if decide (roomId t = roomId_) then Some t else None.

(** [teamModel.findOne({ _id: teamId, roomId }).exec()] *)
Definition teamModel_findOne (teamId roomId_ : ObjectId) : M (option Team) :=
  λ s, (inr (team_matching teamId roomId_ s), s).

(** [teamModel.findOneAndUpdate({ _id: teamId, roomId }, upd, { new: true })] *)
Definition teamModel_findOneAndUpdate (teamId roomId_ : ObjectId)
    (upd : Team → Team) : M (option Team) :=
  λ s, match team_matching teamId roomId_ s with
       | Some t => (inr (Some (upd t)),
                    mkDb (roomModel s) (<[teamId := upd t]> (teamModel s)))
       | None => (inr None, s)
       end.

(** [teamModel.findByIdAndUpdate(teamId, upd, { new: true })] *)
Definition teamModel_findByIdAndUpdate (teamId : ObjectId)
    (upd : Team → Team) : M (option Team) :=
  λ s, match teamModel s !! teamId with
       | Some t => (inr (Some (upd t)),
                    mkDb (roomModel s) (<[teamId := upd t]> (teamModel s)))
       | None => (inr None, s)
       end.

(** [teamModel.deleteOne({ _id: teamId, roomId })], giving [deletedCount]. *)
Definition teamModel_deleteOne (teamId roomId_ : ObjectId) : M nat :=
  λ s, match team_matching teamId roomId_ s with
       | Some _ => (inr 1, mkDb (roomModel s) (delete teamId (teamModel s)))
       | None => (inr 0, s)
       end.

(** [doc.save()] of a new document. *)
Definition teamModel_save (t : Team) : M Team :=
  λ s, (inr t, mkDb (roomModel s) (<[team_id t := t]> (teamModel s))).

(** Field updates.  A key whose value is [undefined] is dropped from the
    update document, so the field keeps its value. *)
Definition with_players (ps : list ObjectId) (t : Team) : Team :=
  mkTeam (team_id t) (roomId t) (team_name t) ps (describer t) (teamLeader t).

Definition with_describer (userId : option ObjectId) (t : Team) : Team :=
  match userId with
  | Some u => mkTeam (team_id t) (roomId t) (team_name t) (players t) (Some u) (teamLeader t)
  | None => t
  end.

Definition with_teamLeader (userId : option ObjectId) (t : Team) : Team :=
  match userId with
  | Some u => mkTeam (team_id t) (roomId t) (team_name t) (players t) (describer t) (Some u)
  | None => t
  end.

(** [{ $pull: { players: userId } }]: every occurrence goes. *)
Definition pull_players (userId : ObjectId) (t : Team) : Team :=
  with_players (filter (λ p, p ≠ userId) (players t)) t.

Definition apply_UpdateTeamDto (dto : UpdateTeamDto) (t : Team) : Team :=
  match ut_players dto with
  | Some ps => with_players ps t
  | None => t
  end.

(** ** TeamsService *)

Module TeamsService.

Definition MAX_USERS_IN_TEAM : nat := 3.

(** What [addPlayerToTeam] returns. *)
Record Added := mkAdded {
  added_message : string;
  added_roomId : ObjectId;
  added_teamId : ObjectId
}.

(** Modelled from the spec: the [Team] schema (team.schema.ts is not among
    the sources); describer and team leader are "unset" on a team until the
    first rotation. *)
Definition schema_default_role : option ObjectId := None.

(** [new this.teamModel({ ...createTeamDto, roomId }).save()] *)
Definition create (roomId_ : ObjectId) (createTeamDto : CreateTeamDto) : M Team :=
  id ← newObjectId;
  let createdTeam :=
    mkTeam id roomId_ (ct_name createTeamDto) (ct_players createTeamDto)
      schema_default_role schema_default_role in
  teamModel_save createdTeam.

Definition findTeamById (teamId : ObjectId) : M (option Team) :=
  λ s, (inr (teamModel s !! teamId), s).

Definition update (teamId : ObjectId) (updateTeamDto : UpdateTeamDto) : M (option Team) :=
  teamModel_findByIdAndUpdate teamId (apply_UpdateTeamDto updateTeamDto).

Definition addPlayerToTeam (userId teamId : ObjectId) : M Added :=
  team ← findTeamById teamId;
  match team with
  | None => throw (NotFoundException Team_not_found)
  | Some team =>
      if bool_decide (MAX_USERS_IN_TEAM ≤ length (players team))then
        throw (BadRequestException Team_is_already_full)
      else if negb (includes (players team) userId) then
        let players' := players team ++ [userId] in
        _ ← update teamId (mkUpdateTeamDto (Some players'));
        mret (mkAdded "Player added to the team successfully."%string
                (roomId team) (team_id team))
      else
        throw (BadRequestException User_is_already_in_the_team)
  end.

Definition findAll (roomId_ : ObjectId) : M (list Team) :=
  λ s, (inr (filter (λ t, roomId t = roomId_) (map_to_list (teamModel s)).*2), s).

Definition findOne (roomId_ teamId : ObjectId) : M Team :=
  team ← teamModel_findOne teamId roomId_;
  match team with
  | None => throw (NotFoundException (Team_in_room_not_found teamId roomId_))
  | Some team => mret team
  end.

Definition remove (roomId_ teamId : ObjectId) : M unit :=
  deletedCount ← teamModel_deleteOne teamId roomId_;
  if decide (deletedCount = 0) then
    throw (NotFoundException (Team_in_room_not_found teamId roomId_))
  else mret tt.

Definition findAllTeamPlayers (roomId_ teamId : ObjectId) : M (list ObjectId) :=
  team ← findOne roomId_ teamId;
  mret (players team).

Definition removePlayer (roomId_ teamId userId : ObjectId) : M Team :=
  team ← teamModel_findOneAndUpdate teamId roomId_ (pull_players userId);
  match team with
  | None => throw (NotFoundException (Team_in_room_not_found teamId roomId_))
  | Some team => mret team
  end.

Definition setDescriber (roomId_ teamId : ObjectId) (userId : option ObjectId) : M Team :=
  team ← teamModel_findOneAndUpdate teamId roomId_ (with_describer userId);
  match team with
  | None => throw (NotFoundException (Team_in_room_not_found teamId roomId_))
  | Some team => mret team
  end.

Definition setTeamLeader (roomId_ teamId : ObjectId) (userId : option ObjectId) : M Team :=
  team ← teamModel_findOneAndUpdate teamId roomId_ (with_teamLeader userId);
  match team with
  | None => throw (NotFoundException (Team_in_room_not_found teamId roomId_))
  | Some team => mret team
  end.

(** The index arithmetic of [defineDescriberAndLeader]. *)
Definition currentDescriberIndex (team : Team) : number :=
  match describer team with
  | Some d => Some (indexOf (players team) d)
  | None => Some (-1)%Z
  end.

Definition nextDescriberIndex (team : Team) : number :=
  js_rem (js_add (currentDescriberIndex team) (Some 1%Z)) (js_length (players team)).

Definition nextDescriber (team : Team) : option ObjectId :=
  js_get (players team) (nextDescriberIndex team).

Definition nextLeaderIndex (team : Team) : number :=
  js_rem (js_add (nextDescriberIndex team) (Some 1%Z)) (js_length (players team)).

Definition nextLeader (team : Team) : option ObjectId :=
  js_get (players team) (nextLeaderIndex team).

Definition defineDescriberAndLeader (roomId_ teamId : ObjectId) : M Team :=
  team ← teamModel_findOne teamId roomId_;
  match team with
  | None => throw (NotFoundException (Team_in_room_not_found teamId roomId_))
  | Some team =>
      _ ← setDescriber roomId_ teamId (nextDescriber team);
      setTeamLeader roomId_ teamId (nextLeader team)
  end.

End TeamsService.

(** ** RoomsService

    rooms.service.ts is not part of the sources at hand; only its caller
    (the bootstrap below) is.  The four operations the bootstrap calls are
    taken from the description of the room directory. *)

Module RoomsService.

(** Modelled from the spec: [deleteAllRooms] of the absent rooms.service.ts,
    "unconditionally removes every room".  It is read as touching the room
    collection only. *)
Definition deleteAllRooms : M unit :=
  λ s, (inr tt, mkDb ∅ (teamModel s)).

(** Modelled from the spec: [findAll] of the absent rooms.service.ts,
    "returns all rooms". *)
Definition findAll : M (list Room) :=
  λ s, (inr (map_to_list (roomModel s)).*2, s).

Definition roomModel_save (r : Room) : M Room :=
  λ s, (inr r, mkDb (<[room_id r := r]> (roomModel s)) (teamModel s)).

(** Modelled from the spec: [create] of the absent rooms.service.ts,
    "inserts a room with the given name, turn duration, and empty/seed
    team-id list". *)
Definition create (createRoomDto : CreateRoomDto) : M Room :=
  id ← newObjectId;
  roomModel_save
    (mkRoom id (cr_name createRoomDto) (cr_teams createRoomDto)
       (cr_turnTime createRoomDto)).

Definition with_teams (teamIds : list ObjectId) (r : Room) : Room :=
  mkRoom (room_id r) (room_name r) teamIds (turnTime r).

(** Modelled from the spec: [updateTeam] of the absent rooms.service.ts,
    "replaces the room's team-id list". *)
Definition updateTeam (roomId_ : ObjectId) (teamIds : list ObjectId) : M unit :=
  λ s, (inr tt, mkDb (alter (with_teams teamIds) roomId_ (roomModel s)) (teamModel s)).

End RoomsService.

(** ** InitializationService *)

Module InitializationService.

Definition initialRooms : list CreateRoomDto :=
  [ mkCreateRoomDto "Room1" [] 60;
    mkCreateRoomDto "Room2" [] 60 ].

(** The three default teams; [TeamsService.create] stamps each with the
    room it is created for. *)
Definition teams_of_room : list CreateTeamDto :=
  [ mkCreateTeamDto "Team1" [];
    mkCreateTeamDto "Team2" [];
    mkCreateTeamDto "Team3" [] ].

Definition addTeamsToRoom (roomId_ : ObjectId) : M unit :=
  teamIds ← forOf teams_of_room
    (λ (teamIds : list ObjectId) team,
       createdTeam ← TeamsService.create roomId_ team;
       mret (teamIds ++ [team_id createdTeam]))
    [];
  RoomsService.updateTeam roomId_ teamIds.

(** [existingRoom.some((existing) => existing.name === room.name)] *)
Definition roomExist (existingRoom : list Room) (room : CreateRoomDto) : bool :=
  existsb (λ existing, bool_decide (room_name existing = cr_name room)) existingRoom.

(** The body of the loop over [initialRooms]. *)
Definition createDefaultRooms_body (_ : unit) (room : CreateRoomDto) : M unit :=
  existingRoom ← RoomsService.findAll;
  if negb (roomExist existingRoom room) then
    createdRoom ← RoomsService.create room;
    addTeamsToRoom (room_id createdRoom)
  else mret tt.

Definition createDefaultRooms : M unit :=
  _ ← RoomsService.deleteAllRooms;
  forOf initialRooms createDefaultRooms_body tt.

Definition onModuleInit : M unit := createDefaultRooms.

(** The bootstrap the description compares with: the same loop without the
    look-up by name, every default room created unconditionally. *)
Definition create_unconditionally (_ : unit) (room : CreateRoomDto) : M unit :=
  createdRoom ← RoomsService.create room;
  addTeamsToRoom (room_id createdRoom).

Definition createDefaultRooms_unconditional : M unit :=
  _ ← RoomsService.deleteAllRooms;
  forOf initialRooms create_unconditionally tt.

End InitializationService.


(** ** Vocabulary of the statements below *)

(** The names the design documents give the three ways [addPlayerToTeam]
    fails. *)
Definition TeamNotFound : HttpException := NotFoundException Team_not_found.
Definition TeamFull : HttpException := BadRequestException Team_is_already_full.
Definition DuplicateMember : HttpException :=
  BadRequestException User_is_already_in_the_team.

(** A store holding one team, with identifier 0, of room 7. *)
Definition one_team (ps : list ObjectId) (d l : option ObjectId) : Db :=
  mkDb ∅ {[ 0 := mkTeam 0 7 "Team1" ps d l ]}.

(** "A player already listed is always turned away as a duplicate", read over
    every team whatever its size. *)
Definition member_always_DuplicateMember : Prop :=
  ∀ (userId teamId : nat) (s : Db) (team : Team),
    teamModel s !! teamId = Some team →
    userId ∈ players team →
    (TeamsService.addPlayerToTeam userId teamId s).1 = inl DuplicateMember.

(** "Every look-up raises when its identifiers resolve to nothing." *)
Definition lookups_always_raise : Prop :=
  (∀ (s : Db) (teamId : nat),
     teamModel s !! teamId = None →
     ∃ e, (TeamsService.findTeamById teamId s).1 = inl e) ∧
  (∀ (s : Db) (roomId_ teamId : nat),
     team_matching teamId roomId_ s = None →
     ∃ e, (TeamsService.findOne roomId_ teamId s).1 = inl e) ∧
  (∀ (s : Db) (roomId_ : nat),
     roomModel s !! roomId_ = None →
     ∃ e, (TeamsService.findAll roomId_ s).1 = inl e).

(** The team as one call of [defineDescriberAndLeader] leaves it. *)
Definition rotated (team : Team) : Team :=
  with_teamLeader (TeamsService.nextLeader team)
    (with_describer (TeamsService.nextDescriber team) team).

(** The store after [k] calls of [defineDescriberAndLeader] in a row. *)
Definition rotations (k : nat) (roomId_ teamId : ObjectId) (s : Db) : Db :=
  Nat.iter k (exec (TeamsService.defineDescriberAndLeader roomId_ teamId)) s.



(** The team with its describer forgotten. *)
Definition describer_unset (team : Team) : Team :=
  mkTeam (team_id team) (roomId team) (team_name team) (players team) None
    (teamLeader team).

(** "Removing a listed player makes the list exactly one shorter", read over
    every team. *)
Definition removing_member_shrinks_by_one : Prop :=
  ∀ (roomId' teamId userId : nat) (s : Db) (team : Team),
    team_matching teamId roomId' s = Some team →
    userId ∈ players team →
    ∃ team',
      (TeamsService.removePlayer roomId' teamId userId s).1 = inr team' ∧
      S (length (players team')) = length (players team).

(** Describer and team leader, when both set, are two different players of
    the team. *)
Definition roles_wf (team : Team) : Prop :=
  ∀ d l : ObjectId,
    describer team = Some d → teamLeader team = Some l →
    d ≠ l ∧ d ∈ players team ∧ l ∈ players team.

Definition store_roles_wf (s : Db) : Prop :=
  ∀ (teamId : nat) (team : Team), teamModel s !! teamId = Some team → roles_wf team.

(** "Every operation on teams keeps [store_roles_wf]." *)
Definition every_operation_keeps_roles_wf : Prop :=
  (∀ (userId teamId : nat) (s : Db),
     store_roles_wf s →
     store_roles_wf (exec (TeamsService.addPlayerToTeam userId teamId) s)) ∧
  (∀ (roomId' teamId userId : nat) (s : Db),
     store_roles_wf s →
     store_roles_wf (exec (TeamsService.removePlayer roomId' teamId userId) s)) ∧
  (∀ (roomId' teamId : nat) (s : Db),
     store_roles_wf s →
     store_roles_wf (exec (TeamsService.defineDescriberAndLeader roomId' teamId) s)).

(** The store that pass number [i] (from 0) of the loop of
    [createDefaultRooms] finds. *)
Definition store_before_pass (i : nat) (s : Db) : Db :=
  exec (forOf (take i InitializationService.initialRooms)
          InitializationService.createDefaultRooms_body tt)
       (exec RoomsService.deleteAllRooms s).

(** ** Vocabulary of the further properties *)

(** A roster within capacity and without repeats. *)
Definition roster_wf (team : Team) : Prop :=
  (length (players team) ≤ TeamsService.MAX_USERS_IN_TEAM)%nat ∧ NoDup (players team).

Definition store_roster_wf (s : Db) : Prop :=
  ∀ (teamId : nat) (team : Team), teamModel s !! teamId = Some team → roster_wf team.

(** The store after [addPlayerToTeam] has been called for each of [userIds]
    in turn. *)
Definition addPlayers (teamId : ObjectId) (userIds : list ObjectId) (s : Db) : Db :=
  foldl (λ s' userId, exec (TeamsService.addPlayerToTeam userId teamId) s') s userIds.

(** The team with the player at position [p] describing and the next one,
    cyclically, leading. *)
Definition placed (team : Team) (p : nat) : Team :=
  with_teamLeader (players team !! ((p + 1) mod length (players team)))
    (with_describer (players team !! p) team).

(** What the scoped operations throw for a team that is not in the room. *)
Definition TeamInRoomNotFound (teamId roomId_ : ObjectId) : HttpException :=
  NotFoundException (Team_in_room_not_found teamId roomId_).

(** Nothing was added to, deleted from, renamed in or moved within the team
    collection between [s] and [s'], and the rooms are the same. *)
Definition same_teams (s s' : Db) : Prop :=
  roomModel s' = roomModel s ∧
  dom (teamModel s') = dom (teamModel s) ∧
  ∀ (teamId : nat) (team' : Team),
    teamModel s' !! teamId = Some team' →
    ∃ team, teamModel s !! teamId = Some team ∧
            team_id team' = team_id team ∧
            roomId team' = roomId team ∧
            team_name team' = team_name team.

(** * Properties *)

(** ** Arrays of identifiers *)

Section IndexOf.

Implicit Types (arr : list nat) (x : nat) (i : Z).

Lemma indexOf_from_absent arr x i : x ∉ arr → indexOf_from arr x i = (-1)%Z.
Proof.
  revert i. induction arr as [|y arr IH]; intros i Hx; simpl; [done|].
  apply not_elem_of_cons in Hx as [Hne Hx].
  case_decide; [done|]. by apply IH.
Qed.

Lemma indexOf_from_present arr x i :
  x ∈ arr → (i ≤ indexOf_from arr x i < i + Z.of_nat (length arr))%Z.
Proof.
  revert i. induction arr as [|y arr IH]; intros i Hx; simpl.
  - by apply elem_of_nil in Hx.
  - case_decide as Hxy; [lia|].
    apply elem_of_cons in Hx as [Hx|Hx]; [done|].
    specialize (IH (i + 1)%Z Hx). lia.
Qed.

(** On an array without repeats, [indexOf] finds the position itself. *)
Lemma indexOf_from_lookup arr x i (k : nat) :
  NoDup arr → arr !! k = Some x → indexOf_from arr x i = (i + Z.of_nat k)%Z.
Proof.
  revert i k. induction arr as [|y arr IH]; intros i k Hnd Hk; [done|].
  apply NoDup_cons in Hnd as [Hy Hnd]. simpl.
  destruct k as [|k]; simpl in Hk.
  - injection Hk as ->. rewrite decide_True by done. lia.
  - case_decide as Hxy.
    + subst y. exfalso. apply Hy. by eapply list_elem_of_lookup_2.
    + rewrite (IH (i + 1)%Z k) by done. lia.
Qed.

Lemma indexOf_absent arr x : x ∉ arr → indexOf arr x = (-1)%Z.
Proof. apply indexOf_from_absent. Qed.

Lemma indexOf_lookup arr x (k : nat) :
  NoDup arr → arr !! k = Some x → indexOf arr x = Z.of_nat k.
Proof. intros ??. unfold indexOf. by erewrite indexOf_from_lookup. Qed.

Lemma includes_true arr x : includes arr x = true ↔ x ∈ arr.
Proof.
  unfold includes, indexOf. split.
  - intros H. destruct (decide (x ∈ arr)) as [|Hn]; [done|].
    rewrite (indexOf_from_absent _ _ _ Hn) in H. done.
  - intros Hx. pose proof (indexOf_from_present arr x 0 Hx).
    apply negb_true_iff, Z.eqb_neq. lia.
Qed.

Lemma includes_false arr x : includes arr x = false ↔ x ∉ arr.
Proof.
  rewrite <- includes_true. destruct (includes arr x); split; congruence.
Qed.

End IndexOf.

(** ** Running service calls *)

Ltac unfold_M :=
  unfold mbind, M_bind, mret, M_ret, throw, exec.

(** A loop over [l1 ++ l2] is the loop over [l1] followed by the loop over
    [l2]. *)
Lemma forOf_app {A L} (l1 l2 : list A) (body : L → A → M L) (locals : L) (s : Db) :
  forOf (l1 ++ l2) body locals s =
    (locals' ← forOf l1 body locals; forOf l2 body locals') s.
Proof.
  revert locals s. induction l1 as [|x l1 IH]; intros locals s; simpl; [done|].
  unfold mbind, M_bind in *.
  destruct (body locals x s) as [[e|locals'] s']; [done|].
  by rewrite IH.
Qed.

Section AddPlayer.

Import TeamsService.

Implicit Types (s : Db) (team : Team) (userId teamId : nat).

Lemma addPlayerToTeam_unknown userId teamId s :
  teamModel s !! teamId = None →
  addPlayerToTeam userId teamId s = (inl TeamNotFound, s).
Proof.
  intros Hl. unfold addPlayerToTeam, findTeamById. unfold_M. by rewrite Hl.
Qed.

Lemma addPlayerToTeam_at_capacity userId teamId s team :
  teamModel s !! teamId = Some team →
  (MAX_USERS_IN_TEAM ≤ length (players team))%nat →
  addPlayerToTeam userId teamId s = (inl TeamFull, s).
Proof.
  intros Hl Hn. unfold addPlayerToTeam, findTeamById. unfold_M. rewrite Hl.
  by rewrite bool_decide_eq_true_2.
Qed.

Lemma addPlayerToTeam_member userId teamId s team :
  teamModel s !! teamId = Some team →
  (length (players team) < MAX_USERS_IN_TEAM)%nat →
  userId ∈ players team →
  addPlayerToTeam userId teamId s = (inl DuplicateMember, s).
Proof.
  intros Hl Hn Hin. unfold addPlayerToTeam, findTeamById. unfold_M. rewrite Hl.
  rewrite bool_decide_eq_false_2 by lia.
  apply includes_true in Hin. by rewrite Hin.
Qed.

Lemma addPlayerToTeam_appends userId teamId s team :
  teamModel s !! teamId = Some team →
  (length (players team) < MAX_USERS_IN_TEAM)%nat →
  userId ∉ players team →
  addPlayerToTeam userId teamId s =
    (inr (mkAdded "Player added to the team successfully." (roomId team) (team_id team)),
     mkDb (roomModel s)
          (<[teamId := with_players (players team ++ [userId]) team]> (teamModel s))).
Proof.
  intros Hl Hn Hin. unfold addPlayerToTeam, findTeamById. unfold_M. rewrite Hl.
  rewrite bool_decide_eq_false_2 by lia.
  apply includes_false in Hin. rewrite Hin. simpl.
  unfold update, teamModel_findByIdAndUpdate. by rewrite Hl.
Qed.

End AddPlayer.

Section AddPlayerClaims.

Import TeamsService.

Implicit Types (s : Db) (team : Team) (userId teamId : nat).

(** C3. A team that already holds exactly three players turns every
    [addPlayerToTeam] away with "Team is already full", whoever the player is
    and whatever else the team's state; the store is left as it was. *)
Theorem addPlayerToTeam_three_players userId teamId s team :
  teamModel s !! teamId = Some team →
  length (players team) = 3 →
  addPlayerToTeam userId teamId s = (inl TeamFull, s).
Proof.
  intros Hl Hn. apply addPlayerToTeam_at_capacity with team; [done|].
  rewrite Hn. done.
Qed.

Lemma addPlayerToTeam_three_players_witness :
  teamModel (one_team [1; 2; 3] None None) !! 0 = Some (mkTeam 0 7 "Team1" [1; 2; 3] None None) ∧
  addPlayerToTeam 1 0 (one_team [1; 2; 3] None None) =
    (inl TeamFull, one_team [1; 2; 3] None None).
Proof.
  split; [reflexivity|].
  apply (addPlayerToTeam_three_players 1 0 _ (mkTeam 0 7 "Team1" [1; 2; 3] None None));
    reflexivity.
Defined.

(** C4, as stated, fails: a full team turns a player it already lists away
    with "Team is already full", not with "User is already in the team". *)
Lemma member_always_DuplicateMember_fails :
  (addPlayerToTeam 1 0 (one_team [1; 2; 3] None None)).1 = inl TeamFull ∧
  ¬ member_always_DuplicateMember.
Proof.
  split; [reflexivity|]. intros H.
  specialize (H 1 0 (one_team [1; 2; 3] None None)
                (mkTeam 0 7 "Team1" [1; 2; 3] None None) eq_refl).
  assert (Hin : 1 ∈ [1; 2; 3]) by compute_done.
  specialize (H Hin). vm_compute in H. discriminate H.
Qed.

(** C4, amended. A player already listed in a team of fewer than three
    players is turned away with "User is already in the team"; once the team
    holds three players the capacity check comes first and the answer is
    "Team is already full". *)
Theorem addPlayerToTeam_already_member userId teamId s team :
  teamModel s !! teamId = Some team →
  userId ∈ players team →
  ((length (players team) < 3)%nat →
     addPlayerToTeam userId teamId s = (inl DuplicateMember, s)) ∧
  ((3 ≤ length (players team))%nat →
     addPlayerToTeam userId teamId s = (inl TeamFull, s)).
Proof.
  intros Hl Hin. split; intros Hn.
  - by apply addPlayerToTeam_member with team.
  - by apply addPlayerToTeam_at_capacity with team.
Qed.

Lemma addPlayerToTeam_already_member_witness :
  addPlayerToTeam 2 0 (one_team [1; 2] None None) =
    (inl DuplicateMember, one_team [1; 2] None None).
Proof.
  refine (proj1 (addPlayerToTeam_already_member 2 0 (one_team [1; 2] None None)
                   (mkTeam 0 7 "Team1" [1; 2] None None) eq_refl _) _).
  - compute_done.
  - simpl. lia.
Defined.

(** C9. When [addPlayerToTeam] throws, it throws one of its three errors and
    nothing has been written: the store, and with it the team's player list,
    is exactly what it was before the call. *)
Theorem addPlayerToTeam_error_leaves_store userId teamId s e s' :
  addPlayerToTeam userId teamId s = (inl e, s') →
  s' = s ∧ (e = TeamNotFound ∨ e = TeamFull ∨ e = DuplicateMember).
Proof.
  intros Hrun.
  destruct (teamModel s !! teamId) as [team|] eqn:Hl.
  - destruct (decide (MAX_USERS_IN_TEAM ≤ length (players team))%nat) as [Hn|Hn].
    + rewrite (addPlayerToTeam_at_capacity _ _ _ _ Hl Hn) in Hrun.
      injection Hrun as <- <-. auto.
    + destruct (decide (userId ∈ players team)) as [Hin|Hin].
      * rewrite (addPlayerToTeam_member _ _ _ team) in Hrun by (done || lia).
        injection Hrun as <- <-. auto.
      * rewrite (addPlayerToTeam_appends _ _ _ team) in Hrun by (done || lia).
        discriminate Hrun.
  - rewrite (addPlayerToTeam_unknown _ _ _ Hl) in Hrun.
    injection Hrun as <- <-. auto.
Qed.

Lemma addPlayerToTeam_error_leaves_store_witness :
  addPlayerToTeam 2 0 (one_team [1; 2] None None) =
    (inl DuplicateMember, one_team [1; 2] None None) ∧
  one_team [1; 2] None None = one_team [1; 2] None None ∧
  (DuplicateMember = TeamNotFound ∨ DuplicateMember = TeamFull ∨
   DuplicateMember = DuplicateMember).
Proof.
  split; [reflexivity|].
  apply (addPlayerToTeam_error_leaves_store 2 0 (one_team [1; 2] None None)).
  reflexivity.
Defined.

End AddPlayerClaims.

(** ** Turn rotation *)

Section Rotation.

Import TeamsService.

Implicit Types (s : Db) (team : Team) (teamId : nat) (ps : list nat).

Lemma team_matching_Some teamId roomId_ s team :
  team_matching teamId roomId_ s = Some team ↔
  teamModel s !! teamId = Some team ∧ roomId team = roomId_.
Proof.
  unfold team_matching. destruct (teamModel s !! teamId) as [t|]; simpl.
  - case_decide as Hr; split.
    + by intros [= ->].
    + by intros [[= ->] _].
    + done.
    + intros [[= ->] ?]. done.
  - split; [done|]. by intros [? _].
Qed.

Lemma team_matching_insert teamId roomId_ s team :
  roomId team = roomId_ →
  team_matching teamId roomId_
    (mkDb (roomModel s) (<[teamId := team]> (teamModel s))) = Some team.
Proof. intros H. apply team_matching_Some. simpl. by rewrite lookup_insert_eq. Qed.

Lemma roomId_with_describer u team : roomId (with_describer u team) = roomId team.
Proof. by destruct u. Qed.


Lemma players_rotated team : players (rotated team) = players team.
Proof.
  unfold rotated. destruct (nextLeader team), (nextDescriber team); done.
Qed.

(** One call: both updates land on the team that was read. *)
Lemma defineDescriberAndLeader_run roomId_ teamId s team :
  team_matching teamId roomId_ s = Some team →
  defineDescriberAndLeader roomId_ teamId s =
    (inr (rotated team),
     mkDb (roomModel s) (<[teamId := rotated team]> (teamModel s))).
Proof.
  intros Hm. pose proof Hm as [Hl Hr]%team_matching_Some.
  unfold defineDescriberAndLeader, teamModel_findOne. unfold_M. rewrite Hm.
  unfold setDescriber, setTeamLeader, teamModel_findOneAndUpdate. unfold_M.
  rewrite Hm.
  rewrite team_matching_insert by (by rewrite roomId_with_describer).
  simpl. by rewrite insert_insert_eq.
Qed.

Lemma defineDescriberAndLeader_unknown roomId_ teamId s :
  team_matching teamId roomId_ s = None →
  defineDescriberAndLeader roomId_ teamId s =
    (inl (NotFoundException (Team_in_room_not_found teamId roomId_)), s).
Proof.
  intros Hm. unfold defineDescriberAndLeader, teamModel_findOne. unfold_M.
  by rewrite Hm.
Qed.

(** [(c + 1) % n] for a current index [c] between -1 and [n - 1]. *)
Lemma next_index (c : Z) ps :
  (1 ≤ length ps)%nat → (-1 ≤ c)%Z →
  js_rem (js_add (Some c) (Some 1%Z)) (js_length ps) =
    Some ((c + 1) `mod` Z.of_nat (length ps))%Z.
Proof.
  intros Hn Hc. simpl. rewrite decide_False by lia.
  f_equal. apply Z.rem_mod_nonneg; lia.
Qed.

Lemma js_get_nat ps (i : nat) : js_get ps (Some (Z.of_nat i)) = ps !! i.
Proof. simpl. rewrite decide_True by lia. by rewrite Nat2Z.id. Qed.

(** What a call computes once the current index is known. *)
Lemma rotation_from_index team (c : Z) (i : nat) :
  (1 ≤ length (players team))%nat →
  currentDescriberIndex team = Some c →
  (-1 ≤ c)%Z →
  ((c + 1) `mod` Z.of_nat (length (players team)))%Z = Z.of_nat i →
  nextDescriberIndex team = Some (Z.of_nat i) ∧
  nextLeaderIndex team = Some (Z.of_nat ((i + 1) mod length (players team))) ∧
  nextDescriber team = players team !! i ∧
  nextLeader team = players team !! ((i + 1) mod length (players team)).
Proof.
  intros Hn Hc Hlo Hi.
  assert (Hnd : nextDescriberIndex team = Some (Z.of_nat i)).
  { unfold nextDescriberIndex. rewrite Hc, next_index by done. by rewrite Hi. }
  assert (Hnl : nextLeaderIndex team =
                Some (Z.of_nat ((i + 1) mod length (players team)))).
  { unfold nextLeaderIndex. rewrite Hnd, next_index by (done || lia).
    f_equal. rewrite Nat2Z.inj_mod. f_equal. lia. }
  unfold nextDescriber, nextLeader. rewrite Hnd, Hnl, !js_get_nat. done.
Qed.

Lemma rotated_roles team (i j : nat) :
  (i < length (players team))%nat → (j < length (players team))%nat →
  nextDescriber team = players team !! i →
  nextLeader team = players team !! j →
  describer (rotated team) = players team !! i ∧
  teamLeader (rotated team) = players team !! j.
Proof.
  intros [x Hx]%lookup_lt_is_Some_2 [y Hy]%lookup_lt_is_Some_2 Hd Hl.
  unfold rotated. rewrite Hd, Hl, Hx, Hy. done.
Qed.





(** The two scenarios of the rotation, run on the code: players 1, 2, 3 with
    no describer yet, three calls in a row; and a team of one. *)
Example rotation_three_players :
  let s0 := one_team [1; 2; 3] None None in
  (defineDescriberAndLeader 7 0 s0).1
    = inr (mkTeam 0 7 "Team1" [1; 2; 3] (Some 1) (Some 2)) ∧
  (defineDescriberAndLeader 7 0 (rotations 1 7 0 s0)).1
    = inr (mkTeam 0 7 "Team1" [1; 2; 3] (Some 2) (Some 3)) ∧
  (defineDescriberAndLeader 7 0 (rotations 2 7 0 s0)).1
    = inr (mkTeam 0 7 "Team1" [1; 2; 3] (Some 3) (Some 1)) ∧
  (defineDescriberAndLeader 7 0 (rotations 3 7 0 s0)).1
    = inr (mkTeam 0 7 "Team1" [1; 2; 3] (Some 1) (Some 2)).
Proof. vm_compute. done. Qed.

Example rotation_single_player :
  (defineDescriberAndLeader 7 0 (one_team [1] None None)).1
    = inr (mkTeam 0 7 "Team1" [1] (Some 1) (Some 1)).
Proof. reflexivity. Qed.

(** C10. A describer who is no longer in the player list counts as no
    describer at all: [indexOf] answers -1, the call picks index 0 for the
    describer and index 1 mod n for the team leader, and leaves the team
    exactly as it would have with the describer unset. *)
Theorem rotation_restarts_without_describer roomId' teamId s team (d : nat) :
  team_matching teamId roomId' s = Some team →
  describer team = Some d →
  d ∉ players team →
  (1 ≤ length (players team))%nat →
  currentDescriberIndex team = Some (-1)%Z ∧
  nextDescriberIndex team = Some 0%Z ∧
  nextLeaderIndex team = Some (Z.of_nat (1 mod length (players team))) ∧
  defineDescriberAndLeader roomId' teamId s =
    (inr (rotated team),
     mkDb (roomModel s) (<[teamId := rotated team]> (teamModel s))) ∧
  describer (rotated team) = players team !! 0%nat ∧
  teamLeader (rotated team) = players team !! (1 mod length (players team)) ∧
  rotated team = rotated (describer_unset team).
Proof.
  intros Hm Hd Hin Hn.
  assert (Hc : currentDescriberIndex team = Some (-1)%Z).
  { unfold currentDescriberIndex. by rewrite Hd, indexOf_absent. }
  destruct (rotation_from_index team (-1) 0 Hn Hc) as (Hnd & Hnl & Hgd & Hgl).
  { done. }
  { apply Z.mod_0_l. lia. }
  simpl in Hnl, Hgl.
  assert (Hlt : (1 mod length (players team) < length (players team))%nat)
    by (apply Nat.mod_upper_bound; lia).
  destruct (rotated_roles team 0 (1 mod length (players team))) as [Hrd Hrl];
    [lia|done..|].
  split_and!; [done..| |done|done|].
  - by apply defineDescriberAndLeader_run.
  - unfold rotated, nextLeader, nextDescriber, nextLeaderIndex, nextDescriberIndex.
    replace (currentDescriberIndex (describer_unset team)) with (Some (-1)%Z) by done.
    rewrite Hc. simpl.
    destruct (players team) as [|p ps]; [simpl in Hn; lia|].
    simpl. by case_decide.
Qed.

Lemma rotation_restarts_without_describer_witness :
  team_matching 0 7 (one_team [1; 2; 3] (Some 9) (Some 1)) =
    Some (mkTeam 0 7 "Team1" [1; 2; 3] (Some 9) (Some 1)) ∧
  (9 ∉ [1; 2; 3]) ∧
  describer (rotated (mkTeam 0 7 "Team1" [1; 2; 3] (Some 9) (Some 1))) = Some 1 ∧
  teamLeader (rotated (mkTeam 0 7 "Team1" [1; 2; 3] (Some 9) (Some 1))) = Some 2.
Proof.
  assert (Hin : 9 ∉ [1; 2; 3]) by compute_done.
  destruct (rotation_restarts_without_describer 7 0
              (one_team [1; 2; 3] (Some 9) (Some 1))
              (mkTeam 0 7 "Team1" [1; 2; 3] (Some 9) (Some 1)) 9
              eq_refl eq_refl Hin ltac:(simpl; lia))
    as (_ & _ & _ & _ & Hd & Hl & _).
  split_and!; [reflexivity|exact Hin|exact Hd|exact Hl].
Defined.

End Rotation.

(** ** Removing a player *)

Section RemovePlayer.

Import TeamsService.

Implicit Types (s : Db) (team : Team) (teamId userId : nat).

Lemma removePlayer_run roomId' teamId userId s team :
  team_matching teamId roomId' s = Some team →
  removePlayer roomId' teamId userId s =
    (inr (pull_players userId team),
     mkDb (roomModel s) (<[teamId := pull_players userId team]> (teamModel s))).
Proof.
  intros Hm. unfold removePlayer, teamModel_findOneAndUpdate. unfold_M.
  by rewrite Hm.
Qed.

Lemma removePlayer_unknown roomId' teamId userId s :
  team_matching teamId roomId' s = None →
  removePlayer roomId' teamId userId s =
    (inl (NotFoundException (Team_in_room_not_found teamId roomId')), s).
Proof.
  intros Hm. unfold removePlayer, teamModel_findOneAndUpdate. unfold_M.
  by rewrite Hm.
Qed.

Lemma filter_absent (userId : nat) (ps : list nat) :
  userId ∉ ps → filter (λ p, p ≠ userId) ps = ps.
Proof.
  induction ps as [|p ps IH]; intros Hin; [done|].
  apply not_elem_of_cons in Hin as [Hne Hin].
  rewrite filter_cons_True by done. by rewrite IH.
Qed.

Lemma pull_players_absent userId team :
  userId ∉ players team → pull_players userId team = team.
Proof.
  intros Hin. unfold pull_players, with_players. rewrite filter_absent by done.
  by destruct team.
Qed.

(** Pulling a player listed once closes the gap and nothing else. *)
Lemma filter_listed_once (userId : nat) (ps : list nat) :
  NoDup ps → userId ∈ ps →
  ∃ before after,
    ps = before ++ userId :: after ∧
    filter (λ p, p ≠ userId) ps = before ++ after.
Proof.
  intros Hnd Hin.
  apply list_elem_of_split in Hin as (before & after & ->).
  exists before, after. split; [done|].
  apply NoDup_app in Hnd as (_ & Hb & [Ha _]%NoDup_cons).
  rewrite filter_app, filter_cons_False by (intros ?; congruence).
  rewrite !filter_absent; [done|done|].
  intros Hin. apply (Hb userId Hin). left.
Qed.

(** C6, as stated, fails: [$pull] drops every occurrence, so on a list that
    names the player twice the list gets two shorter. *)
Lemma removing_member_shrinks_by_one_fails :
  (let s := exec (create 7 (mkCreateTeamDto "Team1" [1; 1; 2])) emptyDb in
   (removePlayer 7 0 1 s).1 = inr (mkTeam 0 7 "Team1" [2] None None)) ∧
  ¬ removing_member_shrinks_by_one.
Proof.
  split; [by vm_compute|]. intros H.
  pose (s := exec (create 7 (mkCreateTeamDto "Team1" [1; 1; 2])) emptyDb).
  destruct (H 7 0 1 s (mkTeam 0 7 "Team1" [1; 1; 2] None None) eq_refl)
    as (team' & Hrun & Hlen).
  - compute_done.
  - vm_compute in Hrun. injection Hrun as <-. simpl in Hlen. discriminate Hlen.
Qed.

(** C6, amended. [removePlayer] on a team that is not in the given room
    throws the not-found error and writes nothing.  On a team that is in the
    room it succeeds and returns the stored team with every occurrence of the
    player taken out of the list, the other players keeping their order:
    the team and the store are unchanged when the player was not listed, and
    when the list names no player twice and the player was listed, the list
    is the old one with that single entry cut out, hence one shorter. *)
Theorem removePlayer_cases roomId' teamId userId s :
  (team_matching teamId roomId' s = None →
     removePlayer roomId' teamId userId s =
       (inl (NotFoundException (Team_in_room_not_found teamId roomId')), s)) ∧
  (∀ team,
     team_matching teamId roomId' s = Some team →
     ∃ team',
       removePlayer roomId' teamId userId s =
         (inr team', mkDb (roomModel s) (<[teamId := team']> (teamModel s))) ∧
       team' = with_players (filter (λ p, p ≠ userId) (players team)) team ∧
       (userId ∉ players team →
          team' = team ∧ removePlayer roomId' teamId userId s = (inr team, s)) ∧
       (userId ∈ players team → NoDup (players team) →
          ∃ before after,
            players team = before ++ userId :: after ∧
            players team' = before ++ after ∧
            S (length (players team')) = length (players team))).
Proof.
  split; [apply removePlayer_unknown|].
  intros team Hm. exists (pull_players userId team).
  rewrite (removePlayer_run _ _ _ _ _ Hm).
  split_and!; [done|done| |].
  - intros Hin. rewrite pull_players_absent by done. split; [done|].
    apply team_matching_Some in Hm as [Hl _].
    rewrite insert_id by done. by destruct s.
  - intros Hin Hnd.
    destruct (filter_listed_once userId (players team) Hnd Hin)
      as (before & after & Hps & Hf).
    exists before, after. simpl. rewrite Hf, Hps.
    split_and!; [done|done|]. rewrite !length_app. simpl. lia.
Qed.

Lemma removePlayer_cases_witness :
  removePlayer 7 0 9 (one_team [1; 2; 3] None None) =
    (inr (mkTeam 0 7 "Team1" [1; 2; 3] None None), one_team [1; 2; 3] None None).
Proof.
  destruct (proj2 (removePlayer_cases 7 0 9 (one_team [1; 2; 3] None None))
              (mkTeam 0 7 "Team1" [1; 2; 3] None None) eq_refl)
    as (team' & _ & _ & Habsent & _).
  apply Habsent. compute_done.
Defined.

Example removePlayer_member :
  (removePlayer 7 0 2 (one_team [1; 2; 3] (Some 1) (Some 2))).1
    = inr (mkTeam 0 7 "Team1" [1; 3] (Some 1) (Some 2)).
Proof. reflexivity. Qed.

End RemovePlayer.

(** ** Look-ups *)

Section Lookups.

Import TeamsService.

(** C7, as stated, fails: [findTeamById] answers [null] for an identifier
    the store does not hold; it does not throw. *)
Lemma lookups_always_raise_fails :
  findTeamById 0 emptyDb = (inr None, emptyDb) ∧
  findAll 7 emptyDb = (inr [], emptyDb) ∧
  ¬ lookups_always_raise.
Proof.
  split_and!; [reflexivity..|]. intros (Hbyid & _ & _).
  destruct (Hbyid emptyDb 0 eq_refl) as [e He].
  vm_compute in He. discriminate He.
Qed.

(** What [findAll] hands back: the stored teams stamped with the room, each
    stored document once. *)
Lemma findAll_elem_of (roomId' : nat) (s : Db) (team : Team) :
  team ∈ filter (λ t, roomId t = roomId') (map_to_list (teamModel s)).*2 ↔
  ∃ id, teamModel s !! id = Some team ∧ roomId team = roomId'.
Proof.
  rewrite list_elem_of_filter, list_elem_of_fmap. split.
  - intros [Hr [[id t] [-> Hin]]]. exists id. split; [|done].
    by apply elem_of_map_to_list in Hin.
  - intros (id & Hl & Hr). split; [done|]. exists (id, team). split; [done|].
    by apply elem_of_map_to_list.
Qed.

Lemma filter_snd_length {K A} (P : A → Prop) `{∀ x, Decision (P x)}
    (l : list (K * A)) :
  length (filter P l.*2) = length (filter (λ kv, P kv.2) l).
Proof.
  induction l as [|[k x] l IH]; [done|]. rewrite fmap_cons. simpl.
  destruct (decide (P x)) as [Hx|Hx].
  - rewrite !filter_cons_True by done. simpl. by rewrite IH.
  - by rewrite !filter_cons_False by done.
Qed.

Lemma findAll_length (roomId' : nat) (s : Db) :
  length (filter (λ t, roomId t = roomId') (map_to_list (teamModel s)).*2) =
  size (filter (λ kv : nat * Team, roomId kv.2 = roomId') (teamModel s)).
Proof.
  rewrite filter_snd_length, map_filter_alt, map_size_list_to_map; [done|].
  eapply sublist_NoDup; [apply (NoDup_fst_map_to_list (teamModel s))|].
  apply fmap_sublist, sublist_filter.
Qed.

(** C7, amended. When no team with the given identifier is in the given
    room, [findOne] throws the not-found error.  The other two look-ups do
    not throw.  [findTeamById] returns [null] for an identifier the store
    does not hold, and it is its caller [addPlayerToTeam] that then throws
    "Team not found.".  [findAll] returns the teams stamped with the room
    identifier, every one of them, once each, and no other, hence an empty
    list when there are none, whether or not such a room exists. *)
Theorem lookups_unresolved (roomId' teamId : nat) (s : Db) :
  (team_matching teamId roomId' s = None →
     findOne roomId' teamId s =
       (inl (NotFoundException (Team_in_room_not_found teamId roomId')), s)) ∧
  (teamModel s !! teamId = None →
     findTeamById teamId s = (inr None, s) ∧
     ∀ userId, addPlayerToTeam userId teamId s = (inl TeamNotFound, s)) ∧
  (∃ found,
     findAll roomId' s = (inr found, s) ∧
     (∀ team, team ∈ found ↔
              ∃ id, teamModel s !! id = Some team ∧ roomId team = roomId') ∧
     length found =
       size (filter (λ kv : nat * Team, roomId kv.2 = roomId') (teamModel s)) ∧
     ((∀ id team, teamModel s !! id = Some team → roomId team ≠ roomId') →
      found = [])).
Proof.
  split_and!.
  - intros Hm. unfold findOne, teamModel_findOne. unfold_M. by rewrite Hm.
  - intros Hl. split.
    + unfold findTeamById. by rewrite Hl.
    + intros userId. by apply addPlayerToTeam_unknown.
  - eexists. split; [reflexivity|]. split_and!.
    + apply findAll_elem_of.
    + apply findAll_length.
    + intros Hnone.
      match goal with |- ?l = [] => destruct l as [|team found] eqn:Hf end; [done|].
      assert (Hin : team ∈ team :: found) by left.
      rewrite <- Hf in Hin. apply findAll_elem_of in Hin as (id & Hl & Hr).
      by destruct (Hnone id team Hl).
Qed.

(** A store with a team of room 7: asked for in room 8 it is not found; an
    identifier nobody carries resolves to [null]; the teams of room 7 are
    returned. *)
Lemma lookups_unresolved_witness :
  findOne 8 0 (one_team [1; 2] None None) =
    (inl (NotFoundException (Team_in_room_not_found 0 8)), one_team [1; 2] None None) ∧
  findTeamById 5 (one_team [1; 2] None None) = (inr None, one_team [1; 2] None None) ∧
  addPlayerToTeam 1 5 (one_team [1; 2] None None) =
    (inl TeamNotFound, one_team [1; 2] None None) ∧
  ∃ found,
    findAll 7 (one_team [1; 2] None None) = (inr found, one_team [1; 2] None None) ∧
    mkTeam 0 7 "Team1" [1; 2] None None ∈ found ∧
    length found = 1%nat.
Proof.
  destruct (lookups_unresolved 8 0 (one_team [1; 2] None None)) as (Hone & _ & _).
  destruct (lookups_unresolved 7 5 (one_team [1; 2] None None))
    as (_ & Hbyid & found & Hall & Hmem & Hlen & _).
  destruct (Hbyid eq_refl) as [Hnull Hadd].
  split_and!.
  - exact (Hone eq_refl).
  - exact Hnull.
  - exact (Hadd 1).
  - exists found. split_and!; [exact Hall| |].
    + apply Hmem. exists 0. split; reflexivity.
    + rewrite Hlen. reflexivity.
Defined.

End Lookups.

(** ** Describer and team leader as members of the team *)

Section Roles.

Import TeamsService.

Implicit Types (s : Db) (team : Team) (teamId userId : nat).

Lemma indexOf_range (arr : list nat) (x : nat) :
  (-1 ≤ indexOf arr x < Z.of_nat (length arr))%Z.
Proof.
  destruct (decide (x ∈ arr)) as [Hin|Hin].
  - pose proof (indexOf_from_present arr x 0 Hin). unfold indexOf. lia.
  - rewrite indexOf_absent by done. lia.
Qed.

(** Whatever the describer was, a call on a team with players picks a position
    of the list and the one after it, cyclically. *)
Lemma rotation_positions team :
  (1 ≤ length (players team))%nat →
  ∃ i : nat,
    (i < length (players team))%nat ∧
    nextDescriber team = players team !! i ∧
    nextLeader team = players team !! ((i + 1) mod length (players team)).
Proof.
  intros Hn.
  assert (∃ c, currentDescriberIndex team = Some c ∧
               (-1 ≤ c < Z.of_nat (length (players team)))%Z) as (c & Hc & Hrange).
  { unfold currentDescriberIndex. destruct (describer team) as [d|].
    - eexists. split; [done|]. apply indexOf_range.
    - exists (-1)%Z. split; [done|]. lia. }
  pose proof (Z.mod_pos_bound (c + 1) (Z.of_nat (length (players team)))) as Hb.
  exists (Z.to_nat ((c + 1) `mod` Z.of_nat (length (players team)))).
  split; [lia|].
  destruct (rotation_from_index team c
              (Z.to_nat ((c + 1) `mod` Z.of_nat (length (players team)))))
    as (_ & _ & Hd & Hl); [done|done|lia|lia|done].
Qed.

Lemma roles_wf_rotated team :
  NoDup (players team) → (2 ≤ length (players team))%nat →
  roles_wf (rotated team).
Proof.
  intros Hnd Hn. set (n := length (players team)) in *.
  destruct (rotation_positions team) as (i & Hi & Hd & Hl); [lia|]. fold n in Hi, Hl.
  assert (Hj : ((i + 1) mod n < n)%nat) by (apply Nat.mod_upper_bound; lia).
  destruct (rotated_roles team i ((i + 1) mod n)) as [Hrd Hrl]; [done..|].
  intros d l Hsd Hsl. rewrite players_rotated.
  rewrite Hrd in Hsd. rewrite Hrl in Hsl.
  split_and!.
  - intros <-.
    pose proof (NoDup_lookup _ _ _ _ Hnd Hsd Hsl) as Heq.
    destruct (decide (i + 1 < n)%nat).
    + rewrite Nat.mod_small in Heq by done. lia.
    + replace (i + 1)%nat with n in Heq by lia.
      rewrite Nat.Div0.mod_same in Heq. lia.
  - by eapply list_elem_of_lookup_2.
  - by eapply list_elem_of_lookup_2.
Qed.

Lemma store_roles_wf_insert s teamId team :
  store_roles_wf s → roles_wf team →
  store_roles_wf (mkDb (roomModel s) (<[teamId := team]> (teamModel s))).
Proof.
  intros Hs Ht id t. simpl. rewrite lookup_insert.
  case_decide; [by intros [= <-]|]. apply Hs.
Qed.

(** C5, as stated, fails: a call of [defineDescriberAndLeader] on a team of
    one makes that one player describer and team leader at once. *)
Lemma every_operation_keeps_roles_wf_fails :
  (defineDescriberAndLeader 7 0 (one_team [1] None None)).1 =
    inr (mkTeam 0 7 "Team1" [1] (Some 1) (Some 1)) ∧
  ¬ every_operation_keeps_roles_wf.
Proof.
  split; [reflexivity|]. intros (_ & _ & Hrot).
  specialize (Hrot 7 0 (one_team [1] None None)).
  assert (Hwf : store_roles_wf (one_team [1] None None)).
  { intros id t Hl. simpl in Hl.
    apply lookup_singleton_Some in Hl as [<- <-]. intros d l Hd. discriminate Hd. }
  destruct (Hrot Hwf 0 (mkTeam 0 7 "Team1" [1] (Some 1) (Some 1)) eq_refl 1 1)
    as [Hne _]; done.
Qed.

(** The invariant is also lost when the describer is removed from the list:
    the list shrinks, the role stays. *)
Example removePlayer_leaves_describer :
  let s := one_team [1; 2; 3] (Some 1) (Some 2) in
  (removePlayer 7 0 1 s).1 = inr (mkTeam 0 7 "Team1" [2; 3] (Some 1) (Some 2)).
Proof. reflexivity. Qed.

(** C5, amended. From a store in which describer and team leader, wherever
    both are set, are two different players of their team: [addPlayerToTeam]
    keeps it so; [removePlayer] keeps it so when the removed player is
    neither the describer nor the team leader of the team; and
    [defineDescriberAndLeader] keeps it so on a team of at least two players
    none of whom is listed twice.  On every team with at least one player a
    call of [defineDescriberAndLeader] leaves both roles set to players of the
    list (the same player when the list has a single entry). *)
Theorem roles_wf_preserved s :
  (store_roles_wf s →
   (∀ userId teamId,
      store_roles_wf (exec (addPlayerToTeam userId teamId) s)) ∧
   (∀ roomId' teamId userId,
      (∀ team, team_matching teamId roomId' s = Some team →
               describer team ≠ Some userId ∧ teamLeader team ≠ Some userId) →
      store_roles_wf (exec (removePlayer roomId' teamId userId) s)) ∧
   (∀ roomId' teamId,
      (∀ team, team_matching teamId roomId' s = Some team →
               NoDup (players team) ∧ (2 ≤ length (players team))%nat) →
      store_roles_wf (exec (defineDescriberAndLeader roomId' teamId) s))) ∧
  (∀ roomId' teamId team,
     team_matching teamId roomId' s = Some team →
     (1 ≤ length (players team))%nat →
     ∃ team' d l,
       (defineDescriberAndLeader roomId' teamId s).1 = inr team' ∧
       players team' = players team ∧
       describer team' = Some d ∧ teamLeader team' = Some l ∧
       d ∈ players team ∧ l ∈ players team ∧
       (length (players team) = 1%nat → d = l)).
Proof.
  split; [intros Hs; split_and!|].
  - intros userId teamId. unfold exec.
    destruct (teamModel s !! teamId) as [team|] eqn:Hl.
    + destruct (decide (MAX_USERS_IN_TEAM ≤ length (players team))%nat) as [Hn|Hn].
      { by rewrite (addPlayerToTeam_at_capacity _ _ _ _ Hl Hn). }
      destruct (decide (userId ∈ players team)) as [Hin|Hin].
      { by rewrite (addPlayerToTeam_member _ _ _ team) by (done || lia). }
      rewrite (addPlayerToTeam_appends _ _ _ team) by (done || lia). simpl.
      apply store_roles_wf_insert; [done|].
      intros d l Hd Hld. simpl in *.
      destruct (Hs teamId team Hl d l Hd Hld) as (? & ? & ?).
      split_and!; [done|apply elem_of_app; by left..].
    + by rewrite (addPlayerToTeam_unknown _ _ _ Hl).
  - intros roomId' teamId userId Hroles. unfold exec.
    destruct (team_matching teamId roomId' s) as [team|] eqn:Hm.
    + rewrite (removePlayer_run _ _ _ _ _ Hm). simpl.
      apply store_roles_wf_insert; [done|].
      destruct (Hroles team eq_refl) as [Hnd Hnl].
      apply team_matching_Some in Hm as [Hl _].
      intros d l Hd Hld. simpl in *.
      destruct (Hs teamId team Hl d l Hd Hld) as (? & ? & ?).
      split_and!; [done|apply list_elem_of_filter; split; [congruence|done]..].
    + by rewrite (removePlayer_unknown _ _ _ _ Hm).
  - intros roomId' teamId Hteam. unfold exec.
    destruct (team_matching teamId roomId' s) as [team|] eqn:Hm.
    + rewrite (defineDescriberAndLeader_run _ _ _ _ Hm). simpl.
      destruct (Hteam team eq_refl) as [Hnd Hn].
      apply store_roles_wf_insert; [done|]. by apply roles_wf_rotated.
    + by rewrite (defineDescriberAndLeader_unknown _ _ _ Hm).
  - intros roomId' teamId team Hm Hn.
    set (n := length (players team)) in *.
    destruct (rotation_positions team Hn) as (i & Hi & Hd & Hl). fold n in Hi, Hl.
    assert (Hj : ((i + 1) mod n < n)%nat) by (apply Nat.mod_upper_bound; lia).
    destruct (rotated_roles team i ((i + 1) mod n)) as [Hrd Hrl]; [done..|].
    destruct (lookup_lt_is_Some_2 (players team) i Hi) as [d Hdi].
    destruct (lookup_lt_is_Some_2 (players team) _ Hj) as [l Hlj].
    exists (rotated team), d, l.
    rewrite (defineDescriberAndLeader_run _ _ _ _ Hm). simpl.
    split_and!; [done|apply players_rotated|congruence|congruence| | |].
    + by eapply list_elem_of_lookup_2.
    + by eapply list_elem_of_lookup_2.
    + intros Hone. rewrite Hone in *.
      assert (i = 0)%nat as -> by lia. simpl in Hlj. congruence.
Qed.

(** A store whose roles are set, rotated; and a team of one that has been
    rotated before, rotated again. *)
Lemma roles_wf_preserved_witness :
  store_roles_wf (one_team [1; 2; 3] (Some 1) (Some 2)) ∧
  store_roles_wf (exec (defineDescriberAndLeader 7 0)
                    (one_team [1; 2; 3] (Some 1) (Some 2))) ∧
  ∃ team' d l,
    (defineDescriberAndLeader 7 0 (one_team [1] (Some 1) (Some 1))).1 = inr team' ∧
    players team' = [1] ∧
    describer team' = Some d ∧ teamLeader team' = Some l ∧
    d ∈ [1] ∧ l ∈ [1] ∧
    (length [1] = 1%nat → d = l).
Proof.
  assert (Hwf : store_roles_wf (one_team [1; 2; 3] (Some 1) (Some 2))).
  { intros id t Hl. simpl in Hl.
    apply lookup_singleton_Some in Hl as [<- <-].
    intros d l [= <-] [= <-]. split_and!; [done|compute_done..]. }
  split_and!.
  - exact Hwf.
  - destruct (proj1 (roles_wf_preserved (one_team [1; 2; 3] (Some 1) (Some 2))) Hwf)
      as (_ & _ & Hrot).
    apply Hrot. intros team Hm. vm_compute in Hm. injection Hm as <-.
    split; [compute_done|simpl; lia].
  - apply (proj2 (roles_wf_preserved (one_team [1] (Some 1) (Some 1))) 7 0
             (mkTeam 0 7 "Team1" [1] (Some 1) (Some 1))).
    + reflexivity.
    + simpl. lia.
Defined.

End Roles.

(** ** Bootstrap *)

Section Bootstrap.

Import InitializationService.

Implicit Types (s : Db) (room : CreateRoomDto) (rooms : list CreateRoomDto).

(** Creating teams does not touch the rooms. *)
Lemma create_teams_loop (dtos : list CreateTeamDto) (rid : nat)
    (acc : list nat) s :
  ∃ ids tm',
    forOf dtos
      (λ (teamIds : list nat) team,
         createdTeam ← TeamsService.create rid team;
         mret (teamIds ++ [team_id createdTeam]))
      acc s = (inr ids, mkDb (roomModel s) tm').
Proof.
  revert acc s. induction dtos as [|dto dtos IH]; intros acc s.
  - exists acc, (teamModel s). by destruct s.
  - simpl. unfold TeamsService.create, newObjectId, teamModel_save. unfold_M. simpl.
    match goal with |- context [forOf dtos _ ?acc' ?s1] =>
      destruct (IH acc' s1) as (ids & tm' & Hloop) end.
    exists ids, tm'. unfold_M. exact Hloop.
Qed.

Lemma addTeamsToRoom_run (rid : nat) s :
  ∃ ids tm',
    addTeamsToRoom rid s =
      (inr tt, mkDb (alter (RoomsService.with_teams ids) rid (roomModel s)) tm').
Proof.
  unfold addTeamsToRoom.
  destruct (create_teams_loop teams_of_room rid [] s) as (ids & tm' & Hloop).
  exists ids, tm'. unfold mbind at 1. unfold M_bind at 1. rewrite Hloop. done.
Qed.

(** One unconditional creation: a room with the requested name and turn time
    appears under an identifier no room had; the others stay. *)
Lemma create_unconditionally_run room s :
  ∃ id ids tm',
    roomModel s !! id = None ∧
    create_unconditionally tt room s =
      (inr tt,
       mkDb (<[id := mkRoom id (cr_name room) ids (cr_turnTime room)]> (roomModel s))
            tm').
Proof.
  unfold create_unconditionally, RoomsService.create, newObjectId,
    RoomsService.roomModel_save.
  set (id := fresh (dom (roomModel s) ∪ dom (teamModel s))).
  set (r := mkRoom id (cr_name room) (cr_teams room) (cr_turnTime room)).
  destruct (addTeamsToRoom_run id
              (mkDb (<[id := r]> (roomModel s)) (teamModel s)))
    as (ids & tm' & Hadd).
  exists id, ids, tm'. split.
  - apply not_elem_of_dom.
    pose proof (is_fresh (dom (roomModel s) ∪ dom (teamModel s))) as Hid.
    fold id in Hid. intros Hin. apply Hid, elem_of_union. by left.
  - unfold_M. simpl. fold id. fold r. rewrite Hadd. simpl.
    by rewrite alter_insert_eq.
Qed.

Lemma roomExist_false s room :
  (∀ id r, roomModel s !! id = Some r → room_name r ≠ cr_name room) →
  roomExist (map_to_list (roomModel s)).*2 room = false.
Proof.
  intros Hnames. unfold roomExist.
  apply not_true_is_false. intros Hex.
  apply existsb_exists in Hex as (r & Hin & Heq).
  apply list_elem_of_In, list_elem_of_fmap in Hin as [[id r'] [-> Hin]].
  apply elem_of_map_to_list in Hin. apply bool_decide_eq_true in Heq.
  by apply (Hnames id r').
Qed.

(** With no room of that name around, the look-up changes nothing. *)
Lemma createDefaultRooms_body_unconditional s room :
  (∀ id r, roomModel s !! id = Some r → room_name r ≠ cr_name room) →
  createDefaultRooms_body tt room s = create_unconditionally tt room s.
Proof.
  intros Hnames. unfold createDefaultRooms_body, RoomsService.findAll.
  unfold mbind at 1, M_bind at 1. by rewrite roomExist_false.
Qed.

(** What the unconditional loop leaves in the room collection. *)
Lemma create_unconditionally_loop rooms s :
  ∃ s',
    forOf rooms create_unconditionally tt s = (inr tt, s') ∧
    (∀ id r, roomModel s' !! id = Some r →
             roomModel s !! id = Some r ∨ room_name r ∈ cr_name <$> rooms) ∧
    (∀ id r, roomModel s !! id = Some r → roomModel s' !! id = Some r) ∧
    (∀ room, room ∈ rooms →
             ∃ id r, roomModel s' !! id = Some r ∧
                     room_name r = cr_name room ∧ turnTime r = cr_turnTime room).
Proof.
  revert s. induction rooms as [|room rooms IH]; intros s.
  - exists s. split_and!; [done|auto|auto|]. by intros room ?%elem_of_nil.
  - destruct (create_unconditionally_run room s) as (id & ids & tm' & Hfresh & Hrun).
    set (s1 := mkDb _ tm') in Hrun.
    destruct (IH s1) as (s' & Hloop & Hnew & Hold & Hall).
    exists s'. split_and!.
    + simpl. unfold mbind, M_bind. rewrite Hrun. exact Hloop.
    + intros id' r Hl. destruct (Hnew id' r Hl) as [Hl1|Hin].
      * simpl in Hl1. rewrite lookup_insert in Hl1. case_decide.
        -- injection Hl1 as <-. right. simpl. left.
        -- by left.
      * right. simpl. by right.
    + intros id' r Hl. apply Hold. simpl. rewrite lookup_insert_ne; [done|].
      intros ->. congruence.
    + intros room' [->|Hin]%elem_of_cons.
      * eexists id, _. split; [apply Hold; simpl; by rewrite lookup_insert_eq|done].
      * by apply Hall.
Qed.

(** Over default rooms with pairwise distinct names, none of them taken yet,
    the loop with the look-up and the loop without it are the same
    computation. *)
Lemma createDefaultRooms_loop_unconditional rooms s :
  NoDup (cr_name <$> rooms) →
  (∀ id r, roomModel s !! id = Some r → room_name r ∉ cr_name <$> rooms) →
  forOf rooms createDefaultRooms_body tt s = forOf rooms create_unconditionally tt s.
Proof.
  revert s. induction rooms as [|room rooms IH]; intros s Hnd Hnames; [done|].
  rewrite fmap_cons in Hnd, Hnames. apply NoDup_cons in Hnd as [Hroom Hnd].
  simpl. unfold mbind, M_bind.
  rewrite createDefaultRooms_body_unconditional.
  2:{ intros id r Hl Heq. apply (Hnames id r Hl). rewrite Heq. left. }
  destruct (create_unconditionally_run room s) as (id & ids & tm' & Hfresh & ->).
  apply IH; [done|].
  intros id' r. simpl. rewrite lookup_insert. case_decide.
  - intros [= <-]. done.
  - intros Hl Hin. apply (Hnames id' r Hl). by right.
Qed.

Lemma initialRooms_names_NoDup : NoDup (cr_name <$> initialRooms).
Proof. compute_done. Qed.

(** C2. Run on the empty store, the bootstrap succeeds and leaves exactly
    two rooms, Room1 and Room2, each with a turn time of 60 seconds; each
    room lists the identifiers of exactly three teams, Team1, Team2 and
    Team3, stamped with that room; and each of the six teams has no players,
    no describer and no team leader. *)
Theorem bootstrap_on_empty_store :
  ∃ r1 r2 a1 a2 a3 b1 b2 b3 : nat,
    NoDup [r1; r2] ∧ NoDup [a1; a2; a3; b1; b2; b3] ∧
    onModuleInit emptyDb =
      (inr tt,
       mkDb
         (list_to_map
            [ (r1, mkRoom r1 "Room1" [a1; a2; a3] 60);
              (r2, mkRoom r2 "Room2" [b1; b2; b3] 60) ])
         (list_to_map
            [ (a1, mkTeam a1 r1 "Team1" [] None None);
              (a2, mkTeam a2 r1 "Team2" [] None None);
              (a3, mkTeam a3 r1 "Team3" [] None None);
              (b1, mkTeam b1 r2 "Team1" [] None None);
              (b2, mkTeam b2 r2 "Team2" [] None None);
              (b3, mkTeam b3 r2 "Team3" [] None None) ])) ∧
    size (roomModel (exec onModuleInit emptyDb)) = 2%nat ∧
    size (teamModel (exec onModuleInit emptyDb)) = 6%nat ∧
    (∃ found, (TeamsService.findAll r1 (exec onModuleInit emptyDb)).1 = inr found ∧
       found ≡ₚ [ mkTeam a1 r1 "Team1" [] None None;
                  mkTeam a2 r1 "Team2" [] None None;
                  mkTeam a3 r1 "Team3" [] None None ]) ∧
    (∃ found, (TeamsService.findAll r2 (exec onModuleInit emptyDb)).1 = inr found ∧
       found ≡ₚ [ mkTeam b1 r2 "Team1" [] None None;
                  mkTeam b2 r2 "Team2" [] None None;
                  mkTeam b3 r2 "Team3" [] None None ]).
Proof.
  exists 0, 4, 1, 2, 3, 5, 6, 7.
  split_and!; [compute_done|compute_done|vm_compute; reflexivity|reflexivity..| |].
  - eexists. split; [vm_compute; reflexivity|]. compute_done.
  - eexists. split; [vm_compute; reflexivity|]. compute_done.
Qed.

End Bootstrap.

(** * Further properties of the team roster *)

Section Membership.

Import TeamsService.

Implicit Types (s : Db) (team : Team) (teamId userId : nat).

Lemma findAllTeamPlayers_run roomId' teamId s team :
  team_matching teamId roomId' s = Some team →
  findAllTeamPlayers roomId' teamId s = (inr (players team), s).
Proof.
  intros Hm. unfold findAllTeamPlayers, findOne, teamModel_findOne. unfold_M.
  by rewrite Hm.
Qed.

Lemma filter_app_last (userId : nat) (ps : list nat) :
  userId ∉ ps → filter (λ p, p ≠ userId) (ps ++ [userId]) = ps.
Proof.
  intros Hin. rewrite filter_app, filter_absent by done.
  rewrite filter_cons_False by (intros Hne; by apply Hne).
  by rewrite filter_nil, app_nil_r.
Qed.

(** X1. A player who is not yet listed joins a team that has room: the call
    answers with the team's room and identifier, the player is the last of the
    list that [findAllTeamPlayers] returns afterwards, and neither the rooms
    nor any other team are touched. *)
Theorem addPlayerToTeam_then_listed userId teamId s team :
  teamModel s !! teamId = Some team →
  (length (players team) < 3)%nat →
  userId ∉ players team →
  ∃ s',
    addPlayerToTeam userId teamId s =
      (inr (mkAdded "Player added to the team successfully."
              (roomId team) (team_id team)), s') ∧
    findAllTeamPlayers (roomId team) teamId s' =
      (inr (players team ++ [userId]), s') ∧
    roomModel s' = roomModel s ∧
    (∀ other, other ≠ teamId → teamModel s' !! other = teamModel s !! other).
Proof.
  intros Hl Hn Hin. eexists. split; [by apply addPlayerToTeam_appends|].
  split_and!.
  - apply (findAllTeamPlayers_run _ _ _ (with_players (players team ++ [userId]) team)).
    by apply team_matching_insert.
  - done.
  - intros other Hne. simpl. by rewrite lookup_insert_ne.
Qed.

Lemma addPlayerToTeam_then_listed_witness :
  (findAllTeamPlayers 7 0 (exec (addPlayerToTeam 3 0) (one_team [1; 2] None None))).1
    = inr [1; 2; 3].
Proof.
  destruct (addPlayerToTeam_then_listed 3 0 (one_team [1; 2] None None)
              (mkTeam 0 7 "Team1" [1; 2] None None) eq_refl)
    as (s' & Hadd & Hlist & _).
  - simpl. lia.
  - compute_done.
  - unfold exec. rewrite Hadd. simpl. simpl in Hlist. by rewrite Hlist.
Defined.

(** X2. Adding a player and then removing that player from the same team
    brings the store back to what it was. *)
Theorem addPlayerToTeam_then_removePlayer userId teamId s team :
  teamModel s !! teamId = Some team →
  (length (players team) < 3)%nat →
  userId ∉ players team →
  exec (removePlayer (roomId team) teamId userId)
    (exec (addPlayerToTeam userId teamId) s) = s.
Proof.
  intros Hl Hn Hin. unfold exec.
  rewrite (addPlayerToTeam_appends _ _ _ team) by done. simpl.
  rewrite (removePlayer_run _ _ _ _
             (with_players (players team ++ [userId]) team))
    by (by apply team_matching_insert).
  simpl. rewrite insert_insert_eq.
  unfold pull_players. simpl. rewrite filter_app_last by done.
  replace (with_players (players team) _) with team by (by destruct team).
  rewrite insert_id by done. by destruct s.
Qed.

Lemma addPlayerToTeam_then_removePlayer_witness :
  exec (removePlayer 7 0 3) (exec (addPlayerToTeam 3 0) (one_team [1; 2] None None))
    = one_team [1; 2] None None.
Proof.
  apply (addPlayerToTeam_then_removePlayer 3 0 (one_team [1; 2] None None)
           (mkTeam 0 7 "Team1" [1; 2] None None)).
  - reflexivity.
  - simpl. lia.
  - compute_done.
Defined.

(** X3. After [removePlayer] the player is nowhere in the returned list,
    however often the list named the player, and removing the same player a
    second time changes nothing more. *)
Theorem removePlayer_idempotent (roomId' teamId userId : nat) s :
  (∀ team', (removePlayer roomId' teamId userId s).1 = inr team' →
            userId ∉ players team') ∧
  exec (removePlayer roomId' teamId userId) (exec (removePlayer roomId' teamId userId) s)
    = exec (removePlayer roomId' teamId userId) s.
Proof.
  destruct (team_matching teamId roomId' s) as [team|] eqn:Hm.
  - pose proof Hm as [Hl Hr]%team_matching_Some.
    unfold exec. rewrite (removePlayer_run _ _ _ _ _ Hm). simpl.
    assert (Hgone : userId ∉ players (pull_players userId team)).
    { simpl. intros [Hne _]%list_elem_of_filter. by apply Hne. }
    split.
    + by intros team' [= <-].
    + rewrite (removePlayer_run _ _ _ _ (pull_players userId team))
        by (by apply team_matching_insert).
      simpl. rewrite insert_insert_eq.
      by rewrite (pull_players_absent _ (pull_players userId team)).
  - split.
    + intros team'. by rewrite (removePlayer_unknown _ _ _ _ Hm).
    + unfold exec. rewrite (removePlayer_unknown _ _ _ _ Hm). cbn [snd].
      by rewrite (removePlayer_unknown _ _ _ _ Hm).
Qed.

Lemma removePlayer_idempotent_witness :
  1 ∉ players (mkTeam 0 7 "Team1" [2] None None).
Proof.
  apply (proj1 (removePlayer_idempotent 7 0 1 (one_team [1; 1; 2] None None))).
  reflexivity.
Defined.

Lemma store_roster_wf_insert s teamId team :
  store_roster_wf s → roster_wf team →
  store_roster_wf (mkDb (roomModel s) (<[teamId := team]> (teamModel s))).
Proof.
  intros Hs Ht id t. simpl. rewrite lookup_insert.
  case_decide; [by intros [= <-]|]. apply Hs.
Qed.

Lemma roster_wf_rotated team : roster_wf team → roster_wf (rotated team).
Proof. unfold roster_wf. by rewrite players_rotated. Qed.

(** X4. A store in which every team has at most three players and lists
    nobody twice stays so under [addPlayerToTeam], [removePlayer] and
    [defineDescriberAndLeader], whatever their arguments and outcome. *)
Theorem store_roster_wf_preserved s :
  store_roster_wf s →
  (∀ userId teamId, store_roster_wf (exec (addPlayerToTeam userId teamId) s)) ∧
  (∀ (roomId' teamId userId : nat),
     store_roster_wf (exec (removePlayer roomId' teamId userId) s)) ∧
  (∀ (roomId' teamId : nat),
     store_roster_wf (exec (defineDescriberAndLeader roomId' teamId) s)).
Proof.
  intros Hs. split_and!.
  - intros userId teamId. unfold exec.
    destruct (teamModel s !! teamId) as [team|] eqn:Hl.
    + destruct (decide (MAX_USERS_IN_TEAM ≤ length (players team))%nat) as [Hn|Hn].
      { by rewrite (addPlayerToTeam_at_capacity _ _ _ _ Hl Hn). }
      destruct (decide (userId ∈ players team)) as [Hin|Hin].
      { by rewrite (addPlayerToTeam_member _ _ _ team) by (done || lia). }
      rewrite (addPlayerToTeam_appends _ _ _ team) by (done || lia). simpl.
      apply store_roster_wf_insert; [done|].
      destruct (Hs teamId team Hl) as [_ Hnd]. split; simpl.
      * rewrite length_app. simpl. lia.
      * apply NoDup_app. split_and!; [done| |apply NoDup_singleton].
        intros x Hx ->%list_elem_of_singleton. done.
    + by rewrite (addPlayerToTeam_unknown _ _ _ Hl).
  - intros roomId' teamId userId. unfold exec.
    destruct (team_matching teamId roomId' s) as [team|] eqn:Hm.
    + rewrite (removePlayer_run _ _ _ _ _ Hm). simpl.
      apply store_roster_wf_insert; [done|].
      apply team_matching_Some in Hm as [Hl _].
      destruct (Hs teamId team Hl) as [Hlen Hnd]. split; simpl.
      * pose proof (length_filter (λ p, p ≠ userId) (players team)). lia.
      * by apply NoDup_filter.
    + by rewrite (removePlayer_unknown _ _ _ _ Hm).
  - intros roomId' teamId. unfold exec.
    destruct (team_matching teamId roomId' s) as [team|] eqn:Hm.
    + rewrite (defineDescriberAndLeader_run _ _ _ _ Hm). simpl.
      apply store_roster_wf_insert; [done|]. apply roster_wf_rotated.
      apply team_matching_Some in Hm as [Hl _]. by apply (Hs teamId).
    + by rewrite (defineDescriberAndLeader_unknown _ _ _ Hm).
Qed.

Lemma store_roster_wf_preserved_witness :
  store_roster_wf (exec (addPlayerToTeam 3 0) (one_team [1; 2] None None)).
Proof.
  refine (proj1 (store_roster_wf_preserved (one_team [1; 2] None None) _) 3 0).
  intros id t Hl. simpl in Hl. apply lookup_singleton_Some in Hl as [<- <-].
  split; [unfold MAX_USERS_IN_TEAM; simpl; lia|compute_done].
Defined.

Lemma with_players_twice (ps qs : list nat) team :
  with_players qs (with_players ps team) = with_players qs team.
Proof. done. Qed.

(** Players joining one after the other. *)
Lemma addPlayers_appends teamId (userIds : list nat) s team :
  teamModel s !! teamId = Some team →
  NoDup (players team ++ userIds) →
  (length (players team ++ userIds) ≤ 3)%nat →
  addPlayers teamId userIds s =
    mkDb (roomModel s) (<[teamId := with_players (players team ++ userIds) team]> (teamModel s)).
Proof.
  revert s team. induction userIds as [|u us IH]; intros s team Hl Hnd Hlen.
  - simpl. rewrite app_nil_r.
    replace (with_players (players team) team) with team by (by destruct team).
    rewrite insert_id by done. by destruct s.
  - simpl. rewrite length_app in Hlen. simpl in Hlen.
    assert (Hu : u ∉ players team).
    { apply NoDup_app in Hnd as (_ & Hdisj & _). intros Hin.
      apply (Hdisj u Hin). left. }
    unfold exec at 1.
    rewrite (addPlayerToTeam_appends _ _ _ team)
      by (done || (unfold MAX_USERS_IN_TEAM; lia)).
    simpl.
    rewrite (IH _ (with_players (players team ++ [u]) team)); simpl.
    + rewrite insert_insert_eq, <- app_assoc. done.
    + by rewrite lookup_insert_eq.
    + by rewrite <- app_assoc.
    + rewrite <- app_assoc, length_app. simpl. lia.
Qed.

(** X5. Players who are all different and fit join in their order of
    arrival: after the calls the list is the old one followed by the
    newcomers, in that order.  Once the list holds three players every
    further call is refused with "Team is already full". *)
Theorem addPlayers_in_order teamId (userIds : list nat) s team :
  teamModel s !! teamId = Some team →
  NoDup (players team ++ userIds) →
  (length (players team ++ userIds) ≤ 3)%nat →
  teamModel (addPlayers teamId userIds s) !! teamId =
    Some (with_players (players team ++ userIds) team) ∧
  (length (players team ++ userIds) = 3%nat →
   ∀ late, addPlayerToTeam late teamId (addPlayers teamId userIds s) =
             (inl TeamFull, addPlayers teamId userIds s)).
Proof.
  intros Hl Hnd Hlen.
  rewrite (addPlayers_appends _ _ _ team) by done. simpl.
  rewrite lookup_insert_eq. split; [done|].
  intros Hfull late.
  apply addPlayerToTeam_at_capacity
    with (with_players (players team ++ userIds) team); simpl.
  - by rewrite lookup_insert_eq.
  - rewrite Hfull. done.
Qed.

Lemma addPlayers_in_order_witness :
  teamModel (addPlayers 0 [4; 5; 6] (one_team [] None None)) !! 0 =
    Some (mkTeam 0 7 "Team1" [4; 5; 6] None None) ∧
  addPlayerToTeam 8 0 (addPlayers 0 [4; 5; 6] (one_team [] None None)) =
    (inl TeamFull, addPlayers 0 [4; 5; 6] (one_team [] None None)).
Proof.
  destruct (addPlayers_in_order 0 [4; 5; 6] (one_team [] None None)
              (mkTeam 0 7 "Team1" [] None None) eq_refl)
    as [Hteam Hfull].
  - compute_done.
  - simpl. lia.
  - split; [exact Hteam|]. by apply Hfull.
Defined.

(** X6. Membership is checked within the one team only: a player already
    listed in one team joins any other team that has room, of the same room
    or not, and is then listed in both. *)
Theorem addPlayerToTeam_ignores_other_teams userId (teamA teamB : nat) s tA tB :
  teamA ≠ teamB →
  teamModel s !! teamA = Some tA →
  teamModel s !! teamB = Some tB →
  userId ∈ players tA →
  userId ∉ players tB →
  (length (players tB) < 3)%nat →
  ∃ added tB',
    addPlayerToTeam userId teamB s =
      (inr added, mkDb (roomModel s) (<[teamB := tB']> (teamModel s))) ∧
    teamModel (exec (addPlayerToTeam userId teamB) s) !! teamA = Some tA ∧
    roomId tB' = roomId tB ∧
    userId ∈ players tB'.
Proof.
  intros Hne HA HB HinA HinB Hn.
  eexists _, (with_players (players tB ++ [userId]) tB).
  split; [by apply addPlayerToTeam_appends|].
  unfold exec. rewrite (addPlayerToTeam_appends _ _ _ tB) by done. simpl.
  split_and!.
  - by rewrite lookup_insert_ne.
  - done.
  - apply elem_of_app. right. left.
Qed.

Lemma addPlayerToTeam_ignores_other_teams_witness :
  let s := mkDb ∅ {[ 0 := mkTeam 0 7 "Team1" [1; 2] None None;
                     5 := mkTeam 5 7 "Team2" [3] None None ]} in
  ∃ added tB',
    addPlayerToTeam 1 5 s =
      (inr added, mkDb (roomModel s) (<[5 := tB']> (teamModel s))) ∧
    teamModel (exec (addPlayerToTeam 1 5) s) !! 0 =
      Some (mkTeam 0 7 "Team1" [1; 2] None None) ∧
    roomId tB' = 7 ∧
    1 ∈ players tB'.
Proof.
  intros s.
  apply (addPlayerToTeam_ignores_other_teams 1 0 5 s
           (mkTeam 0 7 "Team1" [1; 2] None None)
           (mkTeam 5 7 "Team2" [3] None None)).
  - done.
  - reflexivity.
  - reflexivity.
  - compute_done.
  - compute_done.
  - simpl. lia.
Defined.

End Membership.

Section Documents.

Import TeamsService.

Implicit Types (s : Db) (team : Team) (teamId userId : nat).

Lemma team_matching_None_delete teamId (roomId' : nat) s :
  team_matching teamId roomId'
    (mkDb (roomModel s) (delete teamId (teamModel s))) = None.
Proof. unfold team_matching. simpl. by rewrite lookup_delete_eq. Qed.

Lemma remove_run (roomId' teamId : nat) s team :
  team_matching teamId roomId' s = Some team →
  remove roomId' teamId s =
    (inr tt, mkDb (roomModel s) (delete teamId (teamModel s))).
Proof.
  intros Hm. unfold remove, teamModel_deleteOne. unfold_M. by rewrite Hm.
Qed.

Lemma remove_unknown (roomId' teamId : nat) s :
  team_matching teamId roomId' s = None →
  remove roomId' teamId s = (inl (TeamInRoomNotFound teamId roomId'), s).
Proof.
  intros Hm. unfold remove, teamModel_deleteOne. unfold_M. by rewrite Hm.
Qed.

Lemma findOne_run (roomId' teamId : nat) s team :
  team_matching teamId roomId' s = Some team →
  findOne roomId' teamId s = (inr team, s).
Proof.
  intros Hm. unfold findOne, teamModel_findOne. unfold_M. by rewrite Hm.
Qed.

Lemma findOne_unknown (roomId' teamId : nat) s :
  team_matching teamId roomId' s = None →
  findOne roomId' teamId s = (inl (TeamInRoomNotFound teamId roomId'), s).
Proof.
  intros Hm. unfold findOne, teamModel_findOne. unfold_M. by rewrite Hm.
Qed.

(** X7. [remove] of a team that is in the room deletes that document and no
    other.  Afterwards the identifier resolves to nothing: [findTeamById]
    answers [null], [findOne] throws, and a second [remove] throws as well,
    leaving the store as it is. *)
Theorem remove_then_gone (roomId' teamId : nat) s team :
  team_matching teamId roomId' s = Some team →
  ∃ s',
    remove roomId' teamId s = (inr tt, s') ∧
    roomModel s' = roomModel s ∧
    (∀ other, other ≠ teamId → teamModel s' !! other = teamModel s !! other) ∧
    findTeamById teamId s' = (inr None, s') ∧
    findOne roomId' teamId s' = (inl (TeamInRoomNotFound teamId roomId'), s') ∧
    remove roomId' teamId s' = (inl (TeamInRoomNotFound teamId roomId'), s').
Proof.
  intros Hm. eexists. split; [by eapply remove_run|].
  split_and!.
  - done.
  - intros other Hne. simpl. by rewrite lookup_delete_ne.
  - unfold findTeamById. simpl. by rewrite lookup_delete_eq.
  - apply findOne_unknown, team_matching_None_delete.
  - apply remove_unknown, team_matching_None_delete.
Qed.

Lemma remove_then_gone_witness :
  ∃ s',
    remove 7 0 (one_team [1; 2] None None) = (inr tt, s') ∧
    roomModel s' = roomModel (one_team [1; 2] None None) ∧
    (∀ other, other ≠ 0 →
       teamModel s' !! other = teamModel (one_team [1; 2] None None) !! other) ∧
    findTeamById 0 s' = (inr None, s') ∧
    findOne 7 0 s' = (inl (TeamInRoomNotFound 0 7), s') ∧
    remove 7 0 s' = (inl (TeamInRoomNotFound 0 7), s').
Proof.
  apply (remove_then_gone 7 0 (one_team [1; 2] None None)
           (mkTeam 0 7 "Team1" [1; 2] None None)).
  reflexivity.
Defined.

(** X8. [create] stores the new team under an identifier that no team and no
    room carried, stamped with the given room and with the name and players
    of the request, with neither describer nor team leader; [findOne] on
    that room and identifier returns it at once, and the teams that were
    there are still there, unchanged. *)
Theorem create_then_found (roomId' : nat) (dto : CreateTeamDto) s :
  ∃ id s',
    create roomId' dto s =
      (inr (mkTeam id roomId' (ct_name dto) (ct_players dto) None None), s') ∧
    teamModel s !! id = None ∧
    roomModel s !! id = None ∧
    roomModel s' = roomModel s ∧
    findOne roomId' id s' =
      (inr (mkTeam id roomId' (ct_name dto) (ct_players dto) None None), s') ∧
    (∀ other team, teamModel s !! other = Some team →
                   teamModel s' !! other = Some team).
Proof.
  set (id := fresh (dom (roomModel s) ∪ dom (teamModel s))).
  assert (Hid : id ∉ dom (roomModel s) ∪ dom (teamModel s)) by apply is_fresh.
  apply not_elem_of_union in Hid as [Hr Ht].
  apply not_elem_of_dom in Hr, Ht.
  exists id. eexists. split_and!.
  - unfold create, newObjectId, teamModel_save. unfold_M. simpl. reflexivity.
  - done.
  - done.
  - done.
  - apply findOne_run. fold id. by apply team_matching_insert.
  - intros other team Hl. simpl. fold id. rewrite lookup_insert_ne; [done|].
    intros <-. congruence.
Qed.

(** X9. [findAll] returns the teams stamped with the room, all of them and no
    others, and leaves the store alone; whatever [findOne] finds in a room
    is among them. *)
Theorem findAll_members (roomId' : nat) s :
  ∃ found,
    findAll roomId' s = (inr found, s) ∧
    (∀ team, team ∈ found ↔
             ∃ id, teamModel s !! id = Some team ∧ roomId team = roomId') ∧
    (∀ teamId team, findOne roomId' teamId s = (inr team, s) → team ∈ found).
Proof.
  eexists. split; [reflexivity|].
  assert (Hmem : ∀ team,
            team ∈ filter (λ t, roomId t = roomId') (map_to_list (teamModel s)).*2 ↔
            ∃ id, teamModel s !! id = Some team ∧ roomId team = roomId').
  { intros team. rewrite list_elem_of_filter, list_elem_of_fmap. split.
    - intros [Hr [[id t] [-> Hin]]]. exists id. split; [|done].
      by apply elem_of_map_to_list in Hin.
    - intros (id & Hl & Hr). split; [done|]. exists (id, team). split; [done|].
      by apply elem_of_map_to_list. }
  split; [exact Hmem|].
  intros teamId team Hone. apply Hmem. exists teamId.
  destruct (team_matching teamId roomId' s) as [t|] eqn:Hm.
  - rewrite (findOne_run _ _ _ _ Hm) in Hone. injection Hone as <-.
    by apply team_matching_Some in Hm.
  - rewrite (findOne_unknown _ _ _ Hm) in Hone. discriminate Hone.
Qed.

Lemma findAll_members_witness :
  mkTeam 0 7 "Team1" [1; 2] None None ∈
    [mkTeam 0 7 "Team1" [1; 2] None None].
Proof.
  destruct (findAll_members 7 (one_team [1; 2] None None))
    as (found & Hrun & _ & Hone).
  injection Hrun as <-.
  apply (Hone 0). reflexivity.
Defined.

(** X10. The operations scoped by room and team throw exactly when no team
    with that identifier is in that room, be it because the identifier is
    unknown or because the team belongs to another room; they then throw the
    not-found error and have written nothing.  On a team that is in the room
    each of them succeeds. *)
Theorem scoped_operations_throw (roomId' teamId userId : nat) s :
  (team_matching teamId roomId' s = None →
     findOne roomId' teamId s = (inl (TeamInRoomNotFound teamId roomId'), s) ∧
     findAllTeamPlayers roomId' teamId s = (inl (TeamInRoomNotFound teamId roomId'), s) ∧
     remove roomId' teamId s = (inl (TeamInRoomNotFound teamId roomId'), s) ∧
     removePlayer roomId' teamId userId s = (inl (TeamInRoomNotFound teamId roomId'), s) ∧
     defineDescriberAndLeader roomId' teamId s =
       (inl (TeamInRoomNotFound teamId roomId'), s)) ∧
  (∀ team, team_matching teamId roomId' s = Some team →
     (findOne roomId' teamId s).1 = inr team ∧
     (findAllTeamPlayers roomId' teamId s).1 = inr (players team) ∧
     (remove roomId' teamId s).1 = inr tt ∧
     (removePlayer roomId' teamId userId s).1 = inr (pull_players userId team) ∧
     (defineDescriberAndLeader roomId' teamId s).1 = inr (rotated team)).
Proof.
  split.
  - intros Hm. split_and!.
    + by apply findOne_unknown.
    + unfold findAllTeamPlayers. unfold mbind, M_bind.
      by rewrite (findOne_unknown _ _ _ Hm).
    + by apply remove_unknown.
    + by apply removePlayer_unknown.
    + by apply defineDescriberAndLeader_unknown.
  - intros team Hm. split_and!.
    + by rewrite (findOne_run _ _ _ _ Hm).
    + by rewrite (findAllTeamPlayers_run _ _ _ _ Hm).
    + by rewrite (remove_run _ _ _ _ Hm).
    + by rewrite (removePlayer_run _ _ _ _ _ Hm).
    + by rewrite (defineDescriberAndLeader_run _ _ _ _ Hm).
Qed.

(** A team of room 7 asked for in room 8 is not found, and stays. *)
Lemma scoped_operations_throw_witness :
  remove 8 0 (one_team [1; 2] None None) =
    (inl (TeamInRoomNotFound 0 8), one_team [1; 2] None None) ∧
  defineDescriberAndLeader 8 0 (one_team [1; 2] None None) =
    (inl (TeamInRoomNotFound 0 8), one_team [1; 2] None None).
Proof.
  destruct (proj1 (scoped_operations_throw 8 0 1 (one_team [1; 2] None None)) eq_refl)
    as (_ & _ & Hremove & _ & Hrotate).
  split; [exact Hremove|exact Hrotate].
Defined.

Lemma same_teams_refl s : same_teams s s.
Proof.
  split_and!; [done..|]. intros id team Hl. by exists team.
Qed.

Lemma same_teams_insert s teamId team team' :
  teamModel s !! teamId = Some team →
  team_id team' = team_id team →
  roomId team' = roomId team →
  team_name team' = team_name team →
  same_teams s (mkDb (roomModel s) (<[teamId := team']> (teamModel s))).
Proof.
  intros Hl Hid Hr Hname. split_and!; simpl.
  - done.
  - by apply dom_insert_lookup_L.
  - intros id t. rewrite lookup_insert. case_decide as Heq.
    + intros [= <-]. subst id. by exists team.
    + intros Ht. by exists t.
Qed.

(** X11. [addPlayerToTeam], [removePlayer] and [defineDescriberAndLeader]
    neither add nor delete teams: whatever their arguments and outcome, they
    leave the rooms as they are, keep the set of team identifiers, and keep
    every team's identifier, room and name. *)
Theorem updates_keep_teams s :
  (∀ userId teamId, same_teams s (exec (addPlayerToTeam userId teamId) s)) ∧
  (∀ (roomId' teamId userId : nat),
     same_teams s (exec (removePlayer roomId' teamId userId) s)) ∧
  (∀ (roomId' teamId : nat),
     same_teams s (exec (defineDescriberAndLeader roomId' teamId) s)).
Proof.
  split_and!.
  - intros userId teamId. unfold exec.
    destruct (teamModel s !! teamId) as [team|] eqn:Hl.
    + destruct (decide (MAX_USERS_IN_TEAM ≤ length (players team))%nat) as [Hn|Hn].
      { rewrite (addPlayerToTeam_at_capacity _ _ _ _ Hl Hn). apply same_teams_refl. }
      destruct (decide (userId ∈ players team)) as [Hin|Hin].
      { rewrite (addPlayerToTeam_member _ _ _ team) by (done || lia).
        apply same_teams_refl. }
      rewrite (addPlayerToTeam_appends _ _ _ team) by (done || lia). simpl.
      by apply same_teams_insert with team.
    + rewrite (addPlayerToTeam_unknown _ _ _ Hl). apply same_teams_refl.
  - intros roomId' teamId userId. unfold exec.
    destruct (team_matching teamId roomId' s) as [team|] eqn:Hm.
    + rewrite (removePlayer_run _ _ _ _ _ Hm). simpl.
      apply team_matching_Some in Hm as [Hl _].
      by apply same_teams_insert with team.
    + rewrite (removePlayer_unknown _ _ _ _ Hm). apply same_teams_refl.
  - intros roomId' teamId. unfold exec.
    destruct (team_matching teamId roomId' s) as [team|] eqn:Hm.
    + rewrite (defineDescriberAndLeader_run _ _ _ _ Hm). simpl.
      apply team_matching_Some in Hm as [Hl _].
      apply same_teams_insert with team; [done|..];
        unfold rotated; by destruct (nextLeader team), (nextDescriber team).
    + rewrite (defineDescriberAndLeader_unknown _ _ _ Hm). apply same_teams_refl.
Qed.

End Documents.

Section RotationRounds.

Import TeamsService.

Implicit Types (s : Db) (team : Team) (teamId : nat).

Lemma rotated_placed team (i : nat) :
  nextDescriber team = players team !! i →
  nextLeader team = players team !! ((i + 1) mod length (players team)) →
  rotated team = placed team i.
Proof. intros Hd Hl. unfold rotated, placed. by rewrite Hd, Hl. Qed.

Lemma placed_fields team (p : nat) :
  (p < length (players team))%nat →
  players (placed team p) = players team ∧
  roomId (placed team p) = roomId team ∧
  describer (placed team p) = players team !! p ∧
  teamLeader (placed team p) =
    players team !! ((p + 1) mod length (players team)).
Proof.
  intros Hp.
  assert (Hq : ((p + 1) mod length (players team) < length (players team))%nat)
    by (apply Nat.mod_upper_bound; lia).
  destruct (lookup_lt_is_Some_2 _ _ Hp) as [x Hx].
  destruct (lookup_lt_is_Some_2 _ _ Hq) as [y Hy].
  unfold placed. rewrite Hx, Hy. done.
Qed.

Lemma placed_placed team (p q : nat) :
  (p < length (players team))%nat → (q < length (players team))%nat →
  placed (placed team p) q = placed team q.
Proof.
  intros Hp Hq.
  assert (Hp' : ((p + 1) mod length (players team) < length (players team))%nat)
    by (apply Nat.mod_upper_bound; lia).
  assert (Hq' : ((q + 1) mod length (players team) < length (players team))%nat)
    by (apply Nat.mod_upper_bound; lia).
  destruct (lookup_lt_is_Some_2 _ _ Hp) as [x Hx].
  destruct (lookup_lt_is_Some_2 _ _ Hp') as [x' Hx'].
  destruct (lookup_lt_is_Some_2 _ _ Hq) as [y Hy].
  destruct (lookup_lt_is_Some_2 _ _ Hq') as [y' Hy'].
  unfold placed. rewrite Hx, Hx'. simpl. rewrite Hy, Hy'. done.
Qed.

(** From the describer at position [i] the call moves on to the next
    position. *)
Lemma rotated_from_position team (d : nat) (i : nat) :
  NoDup (players team) →
  describer team = Some d →
  players team !! i = Some d →
  rotated team = placed team ((i + 1) mod length (players team)).
Proof.
  intros Hnd Hd Hi.
  assert (Hlt : (i < length (players team))%nat) by (by eapply lookup_lt_Some).
  destruct (rotation_from_index team (Z.of_nat i)
              ((i + 1) mod length (players team)))
    as (_ & _ & Hnext & Hlead).
  - lia.
  - unfold currentDescriberIndex. rewrite Hd. f_equal. by apply indexOf_lookup.
  - lia.
  - rewrite Nat2Z.inj_mod. f_equal. lia.
  - by apply rotated_placed.
Qed.

Lemma rotated_of_placed team (p : nat) :
  NoDup (players team) →
  (p < length (players team))%nat →
  rotated (placed team p) = placed team ((p + 1) mod length (players team)).
Proof.
  intros Hnd Hp.
  destruct (placed_fields team p Hp) as (Hps & _ & Hd & _).
  destruct (lookup_lt_is_Some_2 _ _ Hp) as [x Hx].
  rewrite (rotated_from_position (placed team p) x p); rewrite ?Hps; try done.
  - apply placed_placed; [done|]. apply Nat.mod_upper_bound. lia.
  - by rewrite Hd.
Qed.

(** X12. In the steady state the call moves both roles on by one place: with
    nobody listed twice and the current describer at position i of n, it
    makes the player at position (i + 1) mod n describer and the one at
    (i + 2) mod n team leader, whoever led before, and leaves the player list
    as it is. *)
Theorem rotation_step (roomId' teamId : nat) s team (d : nat) (i : nat) :
  team_matching teamId roomId' s = Some team →
  NoDup (players team) →
  describer team = Some d →
  players team !! i = Some d →
  ∃ team',
    defineDescriberAndLeader roomId' teamId s =
      (inr team', mkDb (roomModel s) (<[teamId := team']> (teamModel s))) ∧
    players team' = players team ∧
    describer team' = players team !! ((i + 1) mod length (players team)) ∧
    teamLeader team' = players team !! ((i + 2) mod length (players team)).
Proof.
  intros Hm Hnd Hd Hi.
  assert (Hlt : (i < length (players team))%nat) by (by eapply lookup_lt_Some).
  assert (Hq : ((i + 1) mod length (players team) < length (players team))%nat)
    by (apply Nat.mod_upper_bound; lia).
  destruct (placed_fields team _ Hq) as (Hps & _ & Hpd & Hpl).
  exists (placed team ((i + 1) mod length (players team))).
  rewrite (defineDescriberAndLeader_run _ _ _ _ Hm).
  rewrite (rotated_from_position team d i) by done.
  split_and!; [done..|].
  rewrite Hpl. f_equal.
  rewrite Nat.Div0.add_mod_idemp_l. f_equal. lia.
Qed.

Lemma rotation_step_witness :
  ∃ team',
    defineDescriberAndLeader 7 0 (one_team [1; 2; 3] (Some 3) (Some 2)) =
      (inr team',
       mkDb ∅ (<[0 := team']> {[ 0 := mkTeam 0 7 "Team1" [1; 2; 3] (Some 3) (Some 2) ]})) ∧
    players team' = [1; 2; 3] ∧
    describer team' = Some 1 ∧
    teamLeader team' = Some 2.
Proof.
  apply (rotation_step 7 0 (one_team [1; 2; 3] (Some 3) (Some 2))
           (mkTeam 0 7 "Team1" [1; 2; 3] (Some 3) (Some 2)) 3 2).
  - reflexivity.
  - compute_done.
  - reflexivity.
  - reflexivity.
Defined.

(** After the first call the team is at some position, and every further
    call moves it on by one. *)
Lemma rotations_placed (roomId' teamId : nat) s team :
  team_matching teamId roomId' s = Some team →
  NoDup (players team) →
  (1 ≤ length (players team))%nat →
  ∃ i0 : nat,
    (i0 < length (players team))%nat ∧
    ∀ k : nat,
      rotations (S k) roomId' teamId s =
        mkDb (roomModel s)
          (<[teamId := placed team ((i0 + k) mod length (players team))]> (teamModel s)).
Proof.
  intros Hm Hnd Hn. set (n := length (players team)) in *.
  destruct (rotation_positions team Hn) as (i0 & Hi0 & Hd & Hl).
  exists i0. split; [done|].
  pose proof Hm as [_ Hroom]%team_matching_Some.
  induction k as [|k IH].
  - unfold rotations. simpl. unfold exec.
    rewrite (defineDescriberAndLeader_run _ _ _ _ Hm). simpl.
    rewrite (rotated_placed team i0) by done.
    by rewrite Nat.add_0_r, Nat.mod_small.
  - assert (Hp : ((i0 + k) mod n < n)%nat) by (apply Nat.mod_upper_bound; lia).
    change (rotations (S (S k)) roomId' teamId s)
      with (exec (defineDescriberAndLeader roomId' teamId)
              (rotations (S k) roomId' teamId s)).
    rewrite IH. unfold exec.
    rewrite (defineDescriberAndLeader_run _ _ _ (placed team ((i0 + k) mod n))).
    + simpl. rewrite insert_insert_eq, rotated_of_placed by done.
      fold n. rewrite Nat.Div0.add_mod_idemp_l.
      by replace (i0 + k + 1)%nat with (i0 + S k)%nat by lia.
    + apply team_matching_insert.
      by destruct (placed_fields team _ Hp) as (_ & -> & _).
Qed.

(** X13. The rotation is periodic: on a team of n >= 1 players, nobody listed
    twice, once the first call has been made, n further calls bring the store
    back to exactly what it was, whatever describer and team leader the team
    started with. *)
Theorem rotation_period (roomId' teamId : nat) s team (k : nat) :
  team_matching teamId roomId' s = Some team →
  NoDup (players team) →
  (1 ≤ length (players team))%nat →
  rotations (S k + length (players team)) roomId' teamId s =
    rotations (S k) roomId' teamId s.
Proof.
  intros Hm Hnd Hn.
  destruct (rotations_placed roomId' teamId s team Hm Hnd Hn) as (i0 & _ & Hk).
  change (S k + length (players team))%nat with (S (k + length (players team))).
  rewrite !Hk. do 3 f_equal.
  rewrite Nat.add_assoc.
  rewrite <- (Nat.Div0.add_mod_idemp_r (i0 + k) (length (players team))).
  by rewrite Nat.Div0.mod_same, Nat.add_0_r.
Qed.

Lemma rotation_period_witness :
  rotations 4 7 0 (one_team [1; 2; 3] (Some 9) None) =
    rotations 1 7 0 (one_team [1; 2; 3] (Some 9) None).
Proof.
  apply (rotation_period 7 0 (one_team [1; 2; 3] (Some 9) None)
           (mkTeam 0 7 "Team1" [1; 2; 3] (Some 9) None) 0).
  - reflexivity.
  - compute_done.
  - simpl. lia.
Defined.



End RotationRounds.

Section BootstrapAnyStore.

Import InitializationService.

Implicit Types (s : Db).

Lemma fresh_id_unused s :
  roomModel s !! fresh (dom (roomModel s) ∪ dom (teamModel s)) = None ∧
  teamModel s !! fresh (dom (roomModel s) ∪ dom (teamModel s)) = None.
Proof.
  pose proof (is_fresh (dom (roomModel s) ∪ dom (teamModel s))) as Hid.
  apply not_elem_of_union in Hid as [Hr Ht].
  by apply not_elem_of_dom in Hr, Ht.
Qed.

(** The three teams of a room, one after the other, each under an identifier
    unused at the time. *)
Lemma addTeamsToRoom_explicit (rid : nat) s :
  ∃ a1 a2 a3 : nat,
    addTeamsToRoom rid s =
      (inr tt,
       mkDb (alter (RoomsService.with_teams [a1; a2; a3]) rid (roomModel s))
            (<[a3 := mkTeam a3 rid "Team3" [] None None]>
               (<[a2 := mkTeam a2 rid "Team2" [] None None]>
                  (<[a1 := mkTeam a1 rid "Team1" [] None None]> (teamModel s))))) ∧
    a1 ≠ a2 ∧ a1 ≠ a3 ∧ a2 ≠ a3 ∧
    (∀ a, a ∈ [a1; a2; a3] → teamModel s !! a = None ∧ roomModel s !! a = None).
Proof.
  set (a1 := fresh (dom (roomModel s) ∪ dom (teamModel s))).
  set (s1 := mkDb (roomModel s)
               (<[a1 := mkTeam a1 rid "Team1" [] None None]> (teamModel s))).
  set (a2 := fresh (dom (roomModel s1) ∪ dom (teamModel s1))).
  set (s2 := mkDb (roomModel s)
               (<[a2 := mkTeam a2 rid "Team2" [] None None]> (teamModel s1))).
  set (a3 := fresh (dom (roomModel s2) ∪ dom (teamModel s2))).
  destruct (fresh_id_unused s) as [Hr1 Ht1]. fold a1 in Hr1, Ht1.
  destruct (fresh_id_unused s1) as [Hr2 Ht2]. fold a2 in Hr2, Ht2.
  destruct (fresh_id_unused s2) as [Hr3 Ht3]. fold a3 in Hr3, Ht3.
  simpl in Hr2, Ht2, Hr3, Ht3.
  apply lookup_insert_None in Ht2 as [Ht2 H12].
  apply lookup_insert_None in Ht3 as [Ht3 H23].
  apply lookup_insert_None in Ht3 as [Ht3 H13].
  exists a1, a2, a3. split_and!; [reflexivity|done..|].
  intros a Ha. repeat apply elem_of_cons in Ha as [->|Ha]; [done..|].
  by apply elem_of_nil in Ha.
Qed.

(** X14. [addTeamsToRoom] creates exactly three teams, Team1, Team2 and Team3,
    under three different identifiers that were in use neither for a team nor
    for a room; each is stamped with the room and starts with no players, no
    describer and no team leader.  The teams that were there stay as they
    are, and so do the other rooms; the room itself, if it exists, gets the
    three identifiers, in that order, as its team list. *)
Theorem addTeamsToRoom_creates_three (rid : nat) s :
  ∃ (a1 a2 a3 : nat) s',
    addTeamsToRoom rid s = (inr tt, s') ∧
    NoDup [a1; a2; a3] ∧
    (∀ a, a ∈ [a1; a2; a3] → teamModel s !! a = None ∧ roomModel s !! a = None) ∧
    teamModel s' !! a1 = Some (mkTeam a1 rid "Team1" [] None None) ∧
    teamModel s' !! a2 = Some (mkTeam a2 rid "Team2" [] None None) ∧
    teamModel s' !! a3 = Some (mkTeam a3 rid "Team3" [] None None) ∧
    dom (teamModel s') = dom (teamModel s) ∪ {[a1; a2; a3]} ∧
    (∀ other team, teamModel s !! other = Some team →
                   teamModel s' !! other = Some team) ∧
    roomModel s' !! rid = RoomsService.with_teams [a1; a2; a3] <$> roomModel s !! rid ∧
    (∀ other, other ≠ rid → roomModel s' !! other = roomModel s !! other).
Proof.
  destruct (addTeamsToRoom_explicit rid s)
    as (a1 & a2 & a3 & Hrun & H12 & H13 & H23 & Hfresh).
  exists a1, a2, a3. eexists. split; [exact Hrun|]. simpl.
  split_and!.
  - apply NoDup_cons_2; [|apply NoDup_cons_2; [|apply NoDup_singleton]].
    + intros [->|[->|[]%elem_of_nil]%elem_of_cons]%elem_of_cons; done.
    + intros [->|[]%elem_of_nil]%elem_of_cons. done.
  - exact Hfresh.
  - rewrite lookup_insert_ne, lookup_insert_ne, lookup_insert_eq by done. done.
  - rewrite lookup_insert_ne, lookup_insert_eq by done. done.
  - by rewrite lookup_insert_eq.
  - rewrite !dom_insert_L. apply set_eq. intros x.
    rewrite !elem_of_union, !elem_of_singleton. tauto.
  - intros other team Hl.
    assert (other ≠ a1 ∧ other ≠ a2 ∧ other ≠ a3) as (? & ? & ?).
    { split_and!; intros ->.
      - destruct (Hfresh a1) as [Hn _]; [left|congruence].
      - destruct (Hfresh a2) as [Hn _]; [right; left|congruence].
      - destruct (Hfresh a3) as [Hn _]; [right; right; left|congruence]. }
    by rewrite !lookup_insert_ne.
  - rewrite lookup_alter. by case_decide.
  - intros other Hne. rewrite lookup_alter. by case_decide.
Qed.

(** One default room with its three teams, on any store. *)
Lemma create_unconditionally_explicit (room : CreateRoomDto) s :
  ∃ r a1 a2 a3 : nat,
    create_unconditionally tt room s =
      (inr tt,
       mkDb (<[r := mkRoom r (cr_name room) [a1; a2; a3] (cr_turnTime room)]>
               (roomModel s))
            (<[a3 := mkTeam a3 r "Team3" [] None None]>
               (<[a2 := mkTeam a2 r "Team2" [] None None]>
                  (<[a1 := mkTeam a1 r "Team1" [] None None]> (teamModel s))))) ∧
    roomModel s !! r = None ∧ teamModel s !! r = None ∧
    a1 ≠ a2 ∧ a1 ≠ a3 ∧ a2 ≠ a3 ∧
    (∀ a, a ∈ [a1; a2; a3] →
          teamModel s !! a = None ∧ roomModel s !! a = None ∧ a ≠ r).
Proof.
  set (r := fresh (dom (roomModel s) ∪ dom (teamModel s))).
  destruct (fresh_id_unused s) as [Hr Ht]. fold r in Hr, Ht.
  set (created := mkRoom r (cr_name room) (cr_teams room) (cr_turnTime room)).
  destruct (addTeamsToRoom_explicit r
              (mkDb (<[r := created]> (roomModel s)) (teamModel s)))
    as (a1 & a2 & a3 & Hrun & H12 & H13 & H23 & Hfresh).
  exists r, a1, a2, a3. split_and!; [|done..|].
  - unfold create_unconditionally, RoomsService.create, newObjectId,
      RoomsService.roomModel_save. unfold_M. simpl. fold r. fold created.
    rewrite Hrun. simpl. by rewrite alter_insert_eq.
  - intros a Ha. destruct (Hfresh a Ha) as [Hta Hra]. simpl in Hta, Hra.
    apply lookup_insert_None in Hra as [Hra Hne]. done.
Qed.

(** The bootstrap, written out: the rooms that were there are dropped, two
    rooms and six teams are created under eight different identifiers, none
    of them a team's before. *)
Lemma createDefaultRooms_explicit s :
  ∃ r1 r2 a1 a2 a3 b1 b2 b3 : nat,
    createDefaultRooms s =
      (inr tt,
       mkDb (<[r2 := mkRoom r2 "Room2" [b1; b2; b3] 60]>
               {[ r1 := mkRoom r1 "Room1" [a1; a2; a3] 60 ]})
            (<[b3 := mkTeam b3 r2 "Team3" [] None None]>
               (<[b2 := mkTeam b2 r2 "Team2" [] None None]>
                  (<[b1 := mkTeam b1 r2 "Team1" [] None None]>
                     (<[a3 := mkTeam a3 r1 "Team3" [] None None]>
                        (<[a2 := mkTeam a2 r1 "Team2" [] None None]>
                           (<[a1 := mkTeam a1 r1 "Team1" [] None None]>
                              (teamModel s)))))))) ∧
    NoDup [r1; r2; a1; a2; a3; b1; b2; b3] ∧
    (∀ x, x ∈ [r1; r2; a1; a2; a3; b1; b2; b3] → teamModel s !! x = None).
Proof.
  set (s0 := mkDb ∅ (teamModel s)).
  assert (Hloop : createDefaultRooms s = forOf initialRooms create_unconditionally tt s0).
  { unfold createDefaultRooms, RoomsService.deleteAllRooms.
    unfold mbind, M_bind. fold s0.
    apply createDefaultRooms_loop_unconditional;
      [apply initialRooms_names_NoDup|].
    intros id r. simpl. by rewrite lookup_empty. }
  destruct (create_unconditionally_explicit (mkCreateRoomDto "Room1" [] 60) s0)
    as (r1 & a1 & a2 & a3 & Hone & _ & Ht1 & Ha12 & Ha13 & Ha23 & Ha).
  set (s1 := mkDb _ _) in Hone.
  destruct (create_unconditionally_explicit (mkCreateRoomDto "Room2" [] 60) s1)
    as (r2 & b1 & b2 & b3 & Htwo & Hr2 & Ht2 & Hb12 & Hb13 & Hb23 & Hb).
  exists r1, r2, a1, a2, a3, b1, b2, b3.
  destruct (Ha a1) as (Hta1 & _ & Hra1); [left|].
  destruct (Ha a2) as (Hta2 & _ & Hra2); [right; left|].
  destruct (Ha a3) as (Hta3 & _ & Hra3); [right; right; left|].
  destruct (Hb b1) as (Htb1 & Hrb1 & Hrb1'); [left|].
  destruct (Hb b2) as (Htb2 & Hrb2 & Hrb2'); [right; left|].
  destruct (Hb b3) as (Htb3 & Hrb3 & Hrb3'); [right; right; left|].
  simpl in *.
  apply lookup_insert_None in Hr2 as [_ Hr12].
  repeat (apply lookup_insert_None in Ht2 as [Ht2 ?]).
  repeat (apply lookup_insert_None in Htb1 as [Htb1 ?]).
  repeat (apply lookup_insert_None in Htb2 as [Htb2 ?]).
  repeat (apply lookup_insert_None in Htb3 as [Htb3 ?]).
  apply lookup_insert_None in Hrb1 as [_ ?].
  apply lookup_insert_None in Hrb2 as [_ ?].
  apply lookup_insert_None in Hrb3 as [_ ?].
  split_and!.
  - rewrite Hloop. unfold initialRooms. simpl. unfold mbind, M_bind.
    rewrite Hone, Htwo. unfold mret, M_ret. simpl.
    by rewrite insert_empty.
  - repeat (apply NoDup_cons_2;
              [rewrite ?not_elem_of_cons; split_and?;
               first [apply not_elem_of_nil | congruence]|]).
    apply NoDup_nil_2.
  - intros x Hx. repeat apply elem_of_cons in Hx as [->|Hx]; [done..|].
    by apply elem_of_nil in Hx.
Qed.

(** C8. Whatever the room collection held before, no pass of the loop of
    [createDefaultRooms] finds a room bearing the name it is about to create
    (the collection was just emptied and the default names differ from one
    another): neither the pass for Room1 nor the pass for Room2.  So the
    bootstrap is the same computation as the one that creates every default
    room without looking: same outcome, same store.  It succeeds, and
    afterwards the room collection holds exactly two rooms, under different
    identifiers: Room1 and Room2, with a turn time of 60 and three teams
    each. *)
Theorem bootstrap_lookup_is_redundant s :
  createDefaultRooms s = createDefaultRooms_unconditional s ∧
  (∀ (i : nat) room,
     initialRooms !! i = Some room →
     roomExist (map_to_list (roomModel (store_before_pass i s))).*2 room = false) ∧
  roomExist (map_to_list (roomModel (store_before_pass 0 s))).*2
    (mkCreateRoomDto "Room1" [] 60) = false ∧
  roomExist (map_to_list (roomModel (store_before_pass 1 s))).*2
    (mkCreateRoomDto "Room2" [] 60) = false ∧
  (createDefaultRooms s).1 = inr tt ∧
  (∀ room, room ∈ initialRooms →
     ∃ id r, roomModel (exec createDefaultRooms s) !! id = Some r ∧
             room_name r = cr_name room ∧ turnTime r = cr_turnTime room) ∧
  (∀ id r, roomModel (exec createDefaultRooms s) !! id = Some r →
           room_name r ∈ cr_name <$> initialRooms) ∧
  (∃ r1 r2 a1 a2 a3 b1 b2 b3 : nat,
     r1 ≠ r2 ∧
     roomModel (exec createDefaultRooms s) =
       <[r2 := mkRoom r2 "Room2" [b1; b2; b3] 60]>
         {[ r1 := mkRoom r1 "Room1" [a1; a2; a3] 60 ]}) ∧
  size (roomModel (exec createDefaultRooms s)) = 2%nat.
Proof.
  set (s0 := mkDb ∅ (teamModel s)).
  assert (Hempty : ∀ id r, roomModel s0 !! id = Some r → False).
  { intros id r. simpl. by rewrite lookup_empty. }
  assert (Heq : createDefaultRooms s = createDefaultRooms_unconditional s).
  { unfold createDefaultRooms, createDefaultRooms_unconditional,
      RoomsService.deleteAllRooms. unfold mbind, M_bind. fold s0.
    rewrite createDefaultRooms_loop_unconditional;
      [done|apply initialRooms_names_NoDup|].
    intros id r Hl. by destruct (Hempty id r). }
  destruct (create_unconditionally_loop initialRooms s0)
    as (s' & Hloop & Hnew & _ & Hall).
  assert (Hrun : createDefaultRooms s = (inr tt, s')).
  { rewrite Heq. unfold createDefaultRooms_unconditional,
      RoomsService.deleteAllRooms. unfold mbind, M_bind. fold s0. exact Hloop. }
  assert (Hpass : ∀ (i : nat) room,
            initialRooms !! i = Some room →
            roomExist (map_to_list (roomModel (store_before_pass i s))).*2 room
              = false).
  { intros i room Hi. apply roomExist_false. intros id r Hl Hname.
    unfold store_before_pass, exec in Hl.
    change (RoomsService.deleteAllRooms s).2 with s0 in Hl.
    pose proof initialRooms_names_NoDup as Hnd.
    rewrite createDefaultRooms_loop_unconditional in Hl.
    + destruct (create_unconditionally_loop (take i initialRooms) s0)
        as (si & Hsi & Hnewi & _).
      rewrite Hsi in Hl. simpl in Hl.
      destruct (Hnewi id r Hl) as [Hl0|Hin]; [by destruct (Hempty id r)|].
      rewrite Hname, fmap_take in Hin.
      apply list_elem_of_lookup in Hin as [j Hj].
      apply lookup_take_Some in Hj as [Hj Hlt].
      assert (Hi' : (cr_name <$> initialRooms) !! i = Some (cr_name room))
        by (by rewrite list_lookup_fmap, Hi).
      pose proof (NoDup_lookup _ _ _ _ Hnd Hj Hi'). lia.
    + rewrite fmap_take. eapply sublist_NoDup; [exact Hnd|apply sublist_take].
    + intros id' r' Hl'. by destruct (Hempty id' r'). }
  destruct (createDefaultRooms_explicit s)
    as (r1 & r2 & a1 & a2 & a3 & b1 & b2 & b3 & Hexp & Hnd & _).
  assert (Hr12 : r1 ≠ r2).
  { apply NoDup_cons in Hnd as [Hr1 _]. intros ->. apply Hr1. left. }
  split_and!.
  - exact Heq.
  - exact Hpass.
  - by apply (Hpass 0).
  - by apply (Hpass 1).
  - by rewrite Hrun.
  - intros room Hin. unfold exec. rewrite Hrun. simpl. by apply Hall.
  - intros id r. unfold exec. rewrite Hrun. simpl. intros Hl.
    destruct (Hnew id r Hl) as [Hl0|Hin]; [by destruct (Hempty id r)|done].
  - exists r1, r2, a1, a2, a3, b1, b2, b3. split; [done|].
    unfold exec. by rewrite Hexp.
  - unfold exec. rewrite Hexp. simpl.
    rewrite map_size_insert_None by (by apply lookup_singleton_None).
    by rewrite map_size_singleton.
Qed.

(** A prior store that already holds a room called Room1: the pass for Room1
    still finds none, and the bootstrap leaves the two default rooms. *)
Lemma bootstrap_lookup_is_redundant_witness :
  let s := mkDb {[ 3 := mkRoom 3 "Room1" [9] 30 ]} ∅ in
  roomExist (map_to_list (roomModel (store_before_pass 0 s))).*2
    (mkCreateRoomDto "Room1" [] 60) = false ∧
  roomExist (map_to_list (roomModel (store_before_pass 1 s))).*2
    (mkCreateRoomDto "Room2" [] 60) = false ∧
  (∃ r1 r2 a1 a2 a3 b1 b2 b3 : nat,
     r1 ≠ r2 ∧
     roomModel (exec createDefaultRooms s) =
       <[r2 := mkRoom r2 "Room2" [b1; b2; b3] 60]>
         {[ r1 := mkRoom r1 "Room1" [a1; a2; a3] 60 ]}) ∧
  size (roomModel (exec createDefaultRooms s)) = 2%nat.
Proof.
  intros s.
  destruct (bootstrap_lookup_is_redundant s)
    as (_ & Hpass & _ & _ & _ & _ & _ & Hrooms & Hsize).
  split_and!.
  - apply (Hpass 0). reflexivity.
  - apply (Hpass 1). reflexivity.
  - exact Hrooms.
  - exact Hsize.
Defined.

(** X15. On a store that holds no room, whatever teams it holds, the
    bootstrap has nothing to delete, succeeds, and only adds: two rooms,
    Room1 and Room2 with a turn time of 60, each listing three new teams
    Team1, Team2, Team3 that are stamped with it and have no players, no
    describer and no team leader.  The eight identifiers are all different
    and none of them was a team's; the teams that were in the store are kept
    as they are. *)
Theorem bootstrap_on_store_without_rooms s :
  roomModel s = ∅ →
  exec RoomsService.deleteAllRooms s = s ∧
  ∃ r1 r2 a1 a2 a3 b1 b2 b3 : nat,
    onModuleInit s =
      (inr tt,
       mkDb (<[r2 := mkRoom r2 "Room2" [b1; b2; b3] 60]>
               {[ r1 := mkRoom r1 "Room1" [a1; a2; a3] 60 ]})
            (<[b3 := mkTeam b3 r2 "Team3" [] None None]>
               (<[b2 := mkTeam b2 r2 "Team2" [] None None]>
                  (<[b1 := mkTeam b1 r2 "Team1" [] None None]>
                     (<[a3 := mkTeam a3 r1 "Team3" [] None None]>
                        (<[a2 := mkTeam a2 r1 "Team2" [] None None]>
                           (<[a1 := mkTeam a1 r1 "Team1" [] None None]>
                              (teamModel s)))))))) ∧
    NoDup [r1; r2; a1; a2; a3; b1; b2; b3] ∧
    (∀ x, x ∈ [r1; r2; a1; a2; a3; b1; b2; b3] → teamModel s !! x = None) ∧
    (∀ id team, teamModel s !! id = Some team →
                teamModel (exec onModuleInit s) !! id = Some team).
Proof.
  intros Hrooms. split.
  - unfold exec, RoomsService.deleteAllRooms. simpl. rewrite <- Hrooms.
    by destruct s.
  - destruct (createDefaultRooms_explicit s)
      as (r1 & r2 & a1 & a2 & a3 & b1 & b2 & b3 & Hexp & Hnd & Hfresh).
    exists r1, r2, a1, a2, a3, b1, b2, b3.
    split_and!; [exact Hexp|exact Hnd|exact Hfresh|].
    intros id team Hl. unfold exec, onModuleInit. rewrite Hexp. simpl.
    rewrite !lookup_insert_ne; [done|intros <-..].
    + rewrite (Hfresh a1) in Hl; [done|]. do 2 right. left.
    + rewrite (Hfresh a2) in Hl; [done|]. do 3 right. left.
    + rewrite (Hfresh a3) in Hl; [done|]. do 4 right. left.
    + rewrite (Hfresh b1) in Hl; [done|]. do 5 right. left.
    + rewrite (Hfresh b2) in Hl; [done|]. do 6 right. left.
    + rewrite (Hfresh b3) in Hl; [done|]. do 7 right. left.
Qed.

Lemma bootstrap_on_store_without_rooms_witness :
  roomModel (one_team [1; 2] (Some 1) (Some 2)) = ∅ ∧
  teamModel (exec onModuleInit (one_team [1; 2] (Some 1) (Some 2))) !! 0 =
    Some (mkTeam 0 7 "Team1" [1; 2] (Some 1) (Some 2)).
Proof.
  split; [reflexivity|].
  destruct (bootstrap_on_store_without_rooms (one_team [1; 2] (Some 1) (Some 2)) eq_refl)
    as (_ & r1 & r2 & a1 & a2 & a3 & b1 & b2 & b3 & _ & _ & _ & Hkept).
  apply Hkept. reflexivity.
Defined.

End BootstrapAnyStore.
